(** * pose-estimation: the streaming video annotation pipeline

    A shallow embedding of [process_video] (src/app/model.py) and of the
    library calls it makes (OpenCV capture and writer, the wall clock, the
    file-system calls of [os] and [shutil], the external ffmpeg process),
    followed by the properties of the pipeline that the specification
    states.

    The outside world is an oracle record ([world]): what a capture reports
    and yields, which codecs open, what the clock reads, how the external
    tool ends.  The program itself is translated statement by statement with
    explicit state passing; exceptions are a sum type. *)

From Stdlib Require Import ZArith QArith Lqa Lia Bool List String Ascii.
From Stdlib Require Import Floats.SpecFloat.
From Stdlib Require Import Orders Mergesort Sorted Permutation.
From stdpp Require Import gmap strings fin_maps.

Import ListNotations.
Local Open Scope string_scope.

(** ** Python strings *)

Module PyStr.

(** [str.startswith]: is [p] a prefix of [s]? *)
Fixpoint startswith (p s : string) : bool :=
  match p, s with
  | EmptyString, _ => true
  | String a p', String b s' => if Ascii.eqb a b then startswith p' s' else false
  | String _ _, EmptyString => false
  end.

(** [old in s] *)
Fixpoint contains (old s : string) : bool :=
  startswith old s ||
  match s with
  | EmptyString => false
  | String _ s' => contains old s'
  end.

(** [s.replace(old, new)] for a non-empty [old]: scan from the left; at a
    match emit [new] and jump over the match, otherwise copy one
    character. *)
Fixpoint replace_from (old new : string) (skip : nat) (s : string) : string :=
  match s with
  | EmptyString => EmptyString
  | String c s' =>
      match skip with
      | S k => replace_from old new k s'
      | O => if startswith old s
             then String.append new (replace_from old new (String.length old - 1) s')
             else String c (replace_from old new 0 s')
      end
  end.

(** With an empty [old] Python inserts [new] before every character and
    at the end. *)
Fixpoint intersperse (new s : string) : string :=
  match s with
  | EmptyString => new
  | String c s' => String.append new (String c (intersperse new s'))
  end.

Definition replace (old new s : string) : string :=
  match old with
  | EmptyString => intersperse new s
  | String _ _ => replace_from old new 0 s
  end.

End PyStr.

(** ** Data model *)

(** A Python float is an IEEE binary64 value; [cap.get] returns one.  Only
    comparison with zero and the constant 30.0 are needed. *)
Definition float_zero : spec_float := S754_zero false.
Definition float_30 : spec_float := S754_finite false 8444249301319680 (-48).

(** A frame as it travels through the loop: the [n]-th decoded frame, or
    the skeleton drawing that [results[0].plot(...)] makes of it. *)
Inductive image : Type :=
| Original (n : nat)
| Skeleton (n : nat).

(** The two four-character codes the writer is asked for. *)
Inductive codec : Type := mp4v | XVID.

(** What a path of the file system holds. *)
Inductive file : Type :=
| RawVideo (c : codec) (frames : list image)  (* written by cv2.VideoWriter *)
| H264 (src : file)                           (* ffmpeg's re-encoding of [src] *)
| Partial                                     (* debris of a failed tool run *)
| Blob (n : nat).                             (* any other file *)

(** The frames a file carries. *)
Fixpoint frames_of (f : file) : list image :=
  match f with
  | RawVideo _ l => l
  | H264 src => frames_of src
  | Partial | Blob _ => []
  end.

Inductive exn : Type :=
| ModelLoadError
| WriterOpenFailed (output_path : string)
| InferenceError (n : nat)
| PlotError (n : nat)
| WriteError (n : nat)
| FileNotFoundError (path : string)
| SameFileError (path : string)
| SpawnError.

Inductive result (A : Type) : Type :=
| Ok (a : A)
| Raised (e : exn).
Arguments Ok {A} a.
Arguments Raised {A} e.

(** *** The oracle *)

(** What the pose model and the writer do with one decoded frame. *)
Inductive infer_outcome : Type :=
| TrackRaises     (* yolo_model.track raises *)
| NoResults       (* len(results) == 0 *)
| PlotRaises      (* results[0].plot raises *)
| Plotted.        (* results[0].plot returns the skeleton drawing *)

Record frame_spec : Type := {
  frame_id : nat;
  infer : infer_outcome;
  write_raises : bool
}.

(** What [cv2.VideoCapture(path)] gives: whether it opened, the properties it
    reports, and the frames it can decode, in order.  [cap_fps = None] stands
    for Python's [None]. *)
Record capture : Type := {
  cap_opened : bool;
  cap_width : Z;
  cap_height : Z;
  cap_fps : option spec_float;
  cap_frames : list frame_spec
}.

(** How the external tool ends. *)
Inductive tool_result : Type :=
| ToolOk                                     (* exit status 0, destination written *)
| ToolFail (code : positive) (debris : bool) (* non-zero exit status *)
| SpawnFails.                                (* subprocess.run raises *)

(** The request object handed down by the HTTP layer; [is_disconnected i]
    is what it would answer if asked during iteration [i]. *)
Record request : Type := { is_disconnected : nat -> bool }.

Record world : Type := {
  model_loads : bool;
  VideoCapture : string -> capture;
  writer_opens : codec -> spec_float -> Z -> Z -> bool;
  clock : nat -> Q;             (* the i-th call of time.time(), in seconds *)
  which_ffmpeg : bool;          (* shutil.which('ffmpeg') is not None *)
  ffmpeg : tool_result
}.

(** *** Observable events and the program state *)

Inductive message : Type :=
| MsgTimeout
| MsgEndOfStream
| MsgProcessingError (frame_count : nat) (e : exn)
| MsgFinished (frame_count : nat)
| MsgFfmpegError
| MsgConverted
| MsgConversionFailed (e : exn).

Inductive event : Type :=
| EvWriter (c : codec) (fps : spec_float) (w h : Z) (ok : bool)
| EvClock (t : Q)
| EvRead (frame : option nat)
| EvWrite (img : image)
| EvCapRelease
| EvOutRelease
| EvFfmpeg (input output : string)
| EvPrint (m : message).

Inductive handle : Type := NotOpen | Open | Released.

Record state : Type := {
  fs : gmap string file;   (* the file system *)
  ticks : nat;             (* calls of time.time() so far *)
  source : handle;         (* cap *)
  sink : handle;           (* out *)
  frame_count : nat;
  trace : list event       (* oldest first *)
}.

Definition init_state (fs0 : gmap string file) : state :=
  {| fs := fs0; ticks := 0; source := NotOpen; sink := NotOpen;
     frame_count := 0; trace := [] |}.

Definition set_fs (m : gmap string file) (st : state) : state :=
  {| fs := m; ticks := ticks st; source := source st; sink := sink st;
     frame_count := frame_count st; trace := trace st |}.
Definition set_ticks (n : nat) (st : state) : state :=
  {| fs := fs st; ticks := n; source := source st; sink := sink st;
     frame_count := frame_count st; trace := trace st |}.
Definition set_source (h : handle) (st : state) : state :=
  {| fs := fs st; ticks := ticks st; source := h; sink := sink st;
     frame_count := frame_count st; trace := trace st |}.
Definition set_sink (h : handle) (st : state) : state :=
  {| fs := fs st; ticks := ticks st; source := source st; sink := h;
     frame_count := frame_count st; trace := trace st |}.
Definition set_frame_count (n : nat) (st : state) : state :=
  {| fs := fs st; ticks := ticks st; source := source st; sink := sink st;
     frame_count := n; trace := trace st |}.
Definition push (e : event) (st : state) : state :=
  {| fs := fs st; ticks := ticks st; source := source st; sink := sink st;
     frame_count := frame_count st; trace := trace st ++ [e] |}.

(** ** State and exception monad

    A statement maps a state to a result and a state; the state survives a
    raised exception, as the handlers of the program read it. *)

Definition M (A : Type) : Type := state -> result A * state.

Definition ret {A} (a : A) : M A := fun st => (Ok a, st).
Definition raise {A} (e : exn) : M A := fun st => (Raised e, st).
Definition bind {A B} (c : M A) (k : A -> M B) : M B :=
  fun st =>
    match c st with
    | (Ok a, st') => k a st'
    | (Raised e, st') => (Raised e, st')
    end.

Declare Scope py_scope.
Delimit Scope py_scope with py.
Notation "x <- c ;; k" := (bind c (fun x => k))
  (at level 100, c at next level, right associativity) : py_scope.
Notation "c ;; k" := (bind c (fun _ => k))
  (at level 100, right associativity) : py_scope.
Local Open Scope py_scope.

(** [try: body except Exception as e: handler e] *)
Definition try_except {A} (body : M A) (handler : exn -> M A) : M A :=
  fun st =>
    match body st with
    | (Ok a, st') => (Ok a, st')
    | (Raised e, st') => handler e st'
    end.

(** [try: body finally: fin] *)
Definition try_finally {A} (body : M A) (fin : M unit) : M A :=
  fun st =>
    match body st with
    | (r, st') =>
        match fin st' with
        | (Ok _, st'') => (r, st'')
        | (Raised e, st'') => (Raised e, st'')
        end
    end.

Definition modify (f : state -> state) : M unit := fun st => (Ok tt, f st).
Definition emit (e : event) : M unit := modify (push e).
Definition print (m : message) : M unit := emit (EvPrint m).

(** ** Library calls *)

(** [get_model()]: loads the pose model on first use; loading may fail. *)
Definition get_model (w : world) : M unit :=
  if model_loads w then ret tt else raise ModelLoadError.

(** [time.time()] *)
Definition time_time (w : world) : M Q :=
  fun st =>
    let t := clock w (ticks st) in
    (Ok t, push (EvClock t) (set_ticks (S (ticks st)) st)).

(** [a > b] on clock values *)
Definition Qgt_bool (a b : Q) : bool := negb (Qle_bool a b).

Definition is_open (h : handle) : bool :=
  match h with Open => true | _ => false end.

Definition cap_isOpened : M bool := fun st => (Ok (is_open (source st)), st).
Definition out_isOpened : M bool := fun st => (Ok (is_open (sink st)), st).

(** [cap.release()] and [out.release()]: safe on a handle in any state; they
    do not raise. *)
Definition cap_release : M unit :=
  modify (fun st => push EvCapRelease (set_source Released st)).
Definition out_release : M unit :=
  modify (fun st => push EvOutRelease (set_sink Released st)).

(** [out = cv2.VideoWriter(path, fourcc, fps, (width, height))]: the
    constructor does not raise; a writer that opens creates an empty
    container at [path]. *)
Definition VideoWriter (w : world) (path : string) (fourcc : codec)
    (fps : spec_float) (width height : Z) : M unit :=
  fun st =>
    let ok := writer_opens w fourcc fps width height in
    (Ok tt,
     push (EvWriter fourcc fps width height ok)
       (if ok
        then set_sink Open (set_fs (<[path := RawVideo fourcc []]> (fs st)) st)
        else set_sink NotOpen st)).

Definition append_frame (img : image) (f : file) : file :=
  match f with
  | RawVideo c l => RawVideo c (l ++ [img])
  | other => other
  end.

(** [out.write(img)] for the writer opened on [path] *)
Definition out_write (path : string) (f : frame_spec) (img : image) : M unit :=
  if write_raises f then raise (WriteError (frame_id f))
  else modify (fun st =>
         push (EvWrite img) (set_fs (alter (append_frame img) path (fs st)) st)).

(** [results = yolo_model.track(frame, persist=True, verbose=False)] *)
Definition model_track (f : frame_spec) : M infer_outcome :=
  match infer f with
  | TrackRaises => raise (InferenceError (frame_id f))
  | o => ret o
  end.

(** [len(results)] *)
Definition results_len (o : infer_outcome) : nat :=
  match o with
  | NoResults => 0
  | _ => 1
  end.

(** [results[0].plot(boxes=False, labels=False, conf=False, ...)] *)
Definition plot (f : frame_spec) (o : infer_outcome) : M image :=
  match o with
  | PlotRaises => raise (PlotError (frame_id f))
  | _ => ret (Skeleton (frame_id f))
  end.

(** *** File system (POSIX behaviour) *)

Definition os_path_exists (p : string) : M bool :=
  fun st => (Ok (match fs st !! p with Some _ => true | None => false end), st).

(** [os.rename(src, dst)]: replaces [dst]; a no-op when both name the same
    file. *)
Definition os_rename (src dst : string) : M unit :=
  fun st =>
    match fs st !! src with
    | None => (Raised (FileNotFoundError src), st)
    | Some f => (Ok tt, set_fs (<[dst := f]> (delete src (fs st))) st)
    end.

(** [shutil.copy2(src, dst)]: refuses to copy a file onto itself. *)
Definition shutil_copy2 (src dst : string) : M unit :=
  fun st =>
    match fs st !! src with
    | None => (Raised (FileNotFoundError src), st)
    | Some f =>
        if String.eqb src dst then (Raised (SameFileError src), st)
        else (Ok tt, set_fs (<[dst := f]> (fs st)) st)
    end.

Definition os_remove (p : string) : M unit :=
  fun st =>
    match fs st !! p with
    | None => (Raised (FileNotFoundError p), st)
    | Some _ => (Ok tt, set_fs (delete p (fs st)) st)
    end.

(** [subprocess.run(['ffmpeg', '-i', input, ..., '-y', output], check=False,
    capture_output=True, text=True).returncode].  The tool is a black box:
    on success it has written its re-encoding of [input] to [output]; on
    failure it may leave debris at [output]. *)
Definition subprocess_run_ffmpeg (w : world) (input output : string) : M Z :=
  emit (EvFfmpeg input output) ;;
  fun st =>
    match ffmpeg w with
    | SpawnFails => (Raised SpawnError, st)
    | ToolOk =>
        match fs st !! input with
        | Some f => (Ok 0%Z, set_fs (<[output := H264 f]> (fs st)) st)
        | None => (Ok 1%Z, st)
        end
    | ToolFail code debris =>
        (Ok (Zpos code),
         if debris then set_fs (<[output := Partial]> (fs st)) st else st)
    end.

(** ** The program: [process_video] *)

(** Lines 67-69: [if fps == 0 or fps is None: fps = 30.0].  The comparison
    with the integer 0 is IEEE equality with zero: true of both zeros, false
    of NaN. *)
Definition valid_fps (fps : option spec_float) : spec_float :=
  match fps with
  | None => float_30
  | Some f => if SFeqb f float_zero then float_30 else f
  end.

Definition TIMEOUT_LIMIT : Q := 60.

Definition incr_frame_count (st : state) : state :=
  set_frame_count (frame_count st + 1) st.

Definition get_frame_count : M nat := fun st => (Ok (frame_count st), st).

(** Lines 95-128: the [while cap.isOpened()] loop.  [frames] is what the
    capture has not handed out yet; [cap.read()] takes its head, and returns
    [ret = False] when nothing is left.  A [break] ends the loop normally.
    The request object is not an argument: nothing in the loop refers to
    it. *)
Fixpoint frame_loop (w : world) (output_path : string) (start_time : Q)
    (frames : list frame_spec) {struct frames} : M unit :=
  opened <- cap_isOpened ;;
  if negb opened then ret tt
  else
    now <- time_time w ;;
    if Qgt_bool (now - start_time) TIMEOUT_LIMIT then print MsgTimeout
    else
      match frames with
      | [] => emit (EvRead None) ;; print MsgEndOfStream
      | f :: rest =>
          emit (EvRead (Some (frame_id f))) ;;
          results <- model_track f ;;
          (if (0 <? results_len results)%nat
           then (annotated_frame <- plot f results ;;
                 out_write output_path f annotated_frame)
           else out_write output_path f (Original (frame_id f))) ;;
          modify incr_frame_count ;;
          frame_loop w output_path start_time rest
      end.

(** Line 145 *)
Definition temp_path_of (output_path : string) : string :=
  PyStr.replace ".mp4" "_temp.mp4" output_path.

(** Lines 143-177: conversion with ffmpeg when it is installed. *)
Definition transcode (w : world) (output_path : string) : M unit :=
  if which_ffmpeg w then
    let temp_path := temp_path_of output_path in
    try_except
      (os_rename output_path temp_path ;;
       returncode <- subprocess_run_ffmpeg w temp_path output_path ;;
       (if negb (returncode =? 0)%Z
        then (print MsgFfmpegError ;; shutil_copy2 temp_path output_path)
        else print MsgConverted) ;;
       ex <- os_path_exists temp_path ;;
       if ex then os_remove temp_path else ret tt)
      (fun e =>
         print (MsgConversionFailed e) ;;
         ex_temp <- os_path_exists temp_path ;;
         ex_out <- os_path_exists output_path ;;
         if ex_temp && negb ex_out then os_rename temp_path output_path
         else ret tt)
  else ret tt.

(** Lines 73-80: the writer is asked for mp4v, and for XVID when that did not
    open. *)
Definition open_writer (w : world) (output_path : string) (fps : spec_float)
    (width height : Z) : M bool :=
  VideoWriter w output_path mp4v fps width height ;;
  opened <- out_isOpened ;;
  (if negb opened then VideoWriter w output_path XVID fps width height
   else ret tt) ;;
  out_isOpened.

(** Lines 89-135: the clock is started, the loop runs under the handler of
    line 129 and the [finally] of line 133. *)
Definition run_loop (w : world) (output_path : string)
    (frames : list frame_spec) : M unit :=
  start_time <- time_time w ;;
  modify (set_frame_count 0) ;;
  try_finally
    (try_except (frame_loop w output_path start_time frames)
       (fun e => n <- get_frame_count ;; print (MsgProcessingError n e)))
    (cap_release ;; out_release).

(** Lines 54-179.  Progress messages are left out; the messages that tell
    the exits of the loop apart are events. *)
Definition process_video (w : world) (video_path output_path : string)
    (request : option request) : M string :=
  get_model w ;;
  let cap := VideoCapture w video_path in
  modify (set_source (if cap_opened cap then Open else NotOpen)) ;;
  let width := cap_width cap in
  let height := cap_height cap in
  let fps := valid_fps (cap_fps cap) in
  opened <- open_writer w output_path fps width height ;;
  if negb opened
  then (cap_release ;; raise (WriterOpenFailed output_path))
  else
    run_loop w output_path (cap_frames cap) ;;
    n <- get_frame_count ;;
    print (MsgFinished n) ;;
    transcode w output_path ;;
    ret output_path.

(** ** Observations on states and traces *)

(** [stable R c]: from every state, whether [c] returns or raises, the state
    it ends in is [R]-related to the one it started from. *)
Definition stable {A} (R : state -> state -> Prop) (c : M A) : Prop :=
  forall st, R st (snd (c st)).

(** The handles are not touched. *)
Definition handles_kept (st st' : state) : Prop :=
  source st' = source st /\ sink st' = sink st.

(** The clock is not read and the frame counter is not assigned. *)
Definition counters_kept (st st' : state) : Prop :=
  ticks st' = ticks st /\ frame_count st' = frame_count st.

(** The trace grows, by events that satisfy [P]. *)
Definition trace_grows (P : event -> Prop) (st st' : state) : Prop :=
  exists tr, trace st' = (trace st ++ tr)%list /\ Forall P tr.

(** The events of the frame loop. *)
Definition loop_event (e : event) : Prop :=
  match e with
  | EvClock _ | EvRead _ | EvWrite _ | EvPrint _ => True
  | _ => False
  end.

(** The events of the conversion step. *)
Definition transcode_event (e : event) : Prop :=
  match e with
  | EvFfmpeg _ _ | EvPrint _ => True
  | _ => False
  end.

(** The frames handed out by [cap.read()], in order; [None] is a read that
    returned [ret = False]. *)
Fixpoint reads (tr : list event) : list (option nat) :=
  match tr with
  | [] => []
  | EvRead r :: tr' => r :: reads tr'
  | _ :: tr' => reads tr'
  end.

(** The frame rates the writer was asked for, in order. *)
Fixpoint writer_fps (tr : list event) : list spec_float :=
  match tr with
  | [] => []
  | EvWriter _ fps _ _ _ :: tr' => fps :: writer_fps tr'
  | _ :: tr' => writer_fps tr'
  end.

(** The codecs with which a writer did open, in order. *)
Fixpoint opened_writers (tr : list event) : list codec :=
  match tr with
  | [] => []
  | EvWriter c _ _ _ true :: tr' => c :: opened_writers tr'
  | _ :: tr' => opened_writers tr'
  end.

(** The exception a frame provokes, if any: in the tracker, in the drawing,
    or in the writer. *)
Definition frame_exn (f : frame_spec) : option exn :=
  match infer f with
  | TrackRaises => Some (InferenceError (frame_id f))
  | PlotRaises => Some (PlotError (frame_id f))
  | NoResults | Plotted =>
      if write_raises f then Some (WriteError (frame_id f)) else None
  end.

(** What is written for a frame that provokes none: the drawing, or the
    frame itself when the tracker returned no result. *)
Definition written_image (f : frame_spec) : image :=
  match infer f with
  | NoResults => Original (frame_id f)
  | _ => Skeleton (frame_id f)
  end.

(** The state after the clock was read at the top of the loop. *)
Definition after_check (w : world) (st : state) : state :=
  push (EvClock (clock w (ticks st))) (set_ticks (S (ticks st)) st).

(** The state after [cap.read()] handed out frame [f]. *)
Definition after_read (w : world) (f : frame_spec) (st : state) : state :=
  push (EvRead (Some (frame_id f))) (after_check w st).

(** The state after an iteration that ran to its end. *)
Definition after_frame (w : world) (output_path : string) (f : frame_spec)
    (st : state) : state :=
  let st1 := after_read w f st in
  incr_frame_count
    (push (EvWrite (written_image f))
       (set_fs (alter (append_frame (written_image f)) output_path (fs st1)) st1)).

(** The state after the frames of [done] went through the loop. *)
Definition after_frames (w : world) (output_path : string)
    (done : list frame_spec) (st : state) : state :=
  fold_left (fun s f => after_frame w output_path f s) done st.

(** The [finally] clause of line 133. *)
Definition drained (st : state) : state :=
  push EvOutRelease (set_sink Released (push EvCapRelease (set_source Released st))).

(** The state in which the loop is entered: the clock was read for
    [start_time] and the counter is zero. *)
Definition loop_entry (w : world) (st : state) : state :=
  set_frame_count 0 (after_check w st).

(** Which of the two codecs opens, if any. *)
Definition opening_codec (w : world) (fps : spec_float) (width height : Z)
  : option codec :=
  if writer_opens w mp4v fps width height then Some mp4v
  else if writer_opens w XVID fps width height then Some XVID
  else None.

(** The events of [open_writer]: mp4v is asked for first, XVID only after
    mp4v did not open. *)
Definition opening_events (w : world) (fps : spec_float) (width height : Z)
  : list event :=
  if writer_opens w mp4v fps width height
  then [EvWriter mp4v fps width height true]
  else [EvWriter mp4v fps width height false;
        EvWriter XVID fps width height (writer_opens w XVID fps width height)].

(** The codec the writer of a run opens with, if any. *)
Definition run_codec (w : world) (video_path : string) : option codec :=
  opening_codec w (valid_fps (cap_fps (VideoCapture w video_path)))
    (cap_width (VideoCapture w video_path))
    (cap_height (VideoCapture w video_path)).

(** After lines 60-80: capture constructed, writer asked for. *)
Definition opened_state (w : world) (video_path output_path : string)
    (st : state) : state :=
  snd (open_writer w output_path
         (valid_fps (cap_fps (VideoCapture w video_path)))
         (cap_width (VideoCapture w video_path))
         (cap_height (VideoCapture w video_path))
         (set_source
            (if cap_opened (VideoCapture w video_path) then Open else NotOpen)
            st)).

(** After line 135: loop left, both handles released. *)
Definition looped_state (w : world) (video_path output_path : string)
    (st : state) : state :=
  snd (run_loop w output_path (cap_frames (VideoCapture w video_path))
         (opened_state w video_path output_path st)).

(** After line 137. *)
Definition finished_state (w : world) (video_path output_path : string)
    (st : state) : state :=
  push (EvPrint (MsgFinished
                   (frame_count (looped_state w video_path output_path st))))
    (looped_state w video_path output_path st).

(** After line 177. *)
Definition final_state (w : world) (video_path output_path : string)
    (st : state) : state :=
  snd (transcode w output_path (finished_state w video_path output_path st)).

(** The state in which the loop is entered. *)
Definition entry_state (w : world) (video_path output_path : string)
    (st : state) : state :=
  loop_entry w (opened_state w video_path output_path st).

(** What the loop returns and the state it leaves. *)
Definition loop_result (w : world) (video_path output_path : string)
    (st : state) : result unit * state :=
  frame_loop w output_path (clock w (ticks st))
    (cap_frames (VideoCapture w video_path))
    (entry_state w video_path output_path st).

(** The state at the top of the loop once the frames of [done] went
    through, in a run started on file system [fs0]. *)
Definition prefix_state (w : world) (video_path output_path : string)
    (fs0 : gmap string file) (done : list frame_spec) : state :=
  after_frames w output_path done
    (entry_state w video_path output_path (init_state fs0)).

(** ** The claims in the words of the specification *)

(** The contract of the sink as the specification words it: the codecs of
    [codecAttempts] are tried in order, the first that opens is returned,
    and the open fails only when all have failed.  The second component
    is the list of attempts made, each with its outcome. *)
Fixpoint spec_sink_open (opens : codec -> bool) (codecAttempts : list codec)
  : option codec * list (codec * bool) :=
  match codecAttempts with
  | [] => (None, [])
  | c :: rest =>
      if opens c then (Some c, [(c, true)])
      else (fst (spec_sink_open opens rest),
            (c, false) :: snd (spec_sink_open opens rest))
  end.

(** C1 as the specification states it, for one run: every frame of the
    source is handed out by [cap.read()] (a bad frame does not keep the
    later ones from being processed), and every frame that provokes no
    exception is counted. *)
Definition later_frames_processed (w : world) (video_path output_path : string)
    (fs0 : gmap string file) : Prop :=
  let st := snd (process_video w video_path output_path None (init_state fs0)) in
  let frames := cap_frames (VideoCapture w video_path) in
  (forall f, In f frames -> In (Some (frame_id f)) (reads (trace st))) /\
  length (List.filter (fun f => match frame_exn f with None => true | _ => false end)
            frames)
  <= frame_count st.


(** C7 as the specification states it, for one run with a request object:
    once the request reports the disconnection at iteration [i], no more than
    [i] reads have been made. *)
Definition stops_on_disconnect (w : world) (video_path output_path : string)
    (req : request) (fs0 : gmap string file) : Prop :=
  let st := snd (process_video w video_path output_path (Some req)
                   (init_state fs0)) in
  forall i, is_disconnected req i = true -> length (reads (trace st)) <= i.

(** ** Sample worlds *)

Definition good_frame (n : nat) : frame_spec :=
  {| frame_id := n; infer := Plotted; write_raises := false |}.

Definition tracker_fails_on (n : nat) : frame_spec :=
  {| frame_id := n; infer := TrackRaises; write_raises := false |}.

(** A 640x480 source at 30 frames per second. *)
Definition sample_capture (frames : list frame_spec) : capture :=
  {| cap_opened := true; cap_width := 640; cap_height := 480;
     cap_fps := Some float_30; cap_frames := frames |}.

(** A machine on which mp4v opens and ffmpeg is not installed. *)
Definition sample_world (cap : capture) (clk : nat -> Q) : world :=
  {| model_loads := true;
     VideoCapture := fun _ => cap;
     writer_opens := fun c _ _ _ => match c with mp4v => true | XVID => false end;
     clock := clk;
     which_ffmpeg := false;
     ffmpeg := ToolOk |}.


(** Three frames; the tracker raises on the second. *)
Definition bad_frame_world : world :=
  sample_world (sample_capture [good_frame 0; tracker_fails_on 1; good_frame 2])
    (fun _ => 0%Q).


(** A client that is gone before the first frame. *)
Definition gone_request : request := {| is_disconnected := fun _ => true |}.

(** The output path that [predict_sample_video] (src/app/main.py, line 133)
    builds for the sample file clip.avi. *)
Definition avi_output : string := "results/processed_clip.avi".

(** A machine with ffmpeg installed; one frame in the source. *)
Definition ffmpeg_world (t : tool_result) : world :=
  {| model_loads := true;
     VideoCapture := fun _ => sample_capture [good_frame 0];
     writer_opens := fun c _ _ _ => match c with mp4v => true | XVID => false end;
     clock := fun _ => 0%Q;
     which_ffmpeg := true;
     ffmpeg := t |}.

(** A machine on which only XVID opens. *)
Definition xvid_world : world :=
  {| model_loads := true;
     VideoCapture := fun _ => sample_capture [good_frame 0];
     writer_opens := fun c _ _ _ => match c with mp4v => false | XVID => true end;
     clock := fun _ => 0%Q;
     which_ffmpeg := false;
     ffmpeg := ToolOk |}.

(** 25.0 *)
Definition float_25 : spec_float := S754_finite false 7036874417766400 (-48).

(** ** More of the Python library (src/app/main.py) *)

(** Every character of [s] satisfies [p]. *)
Fixpoint all_chars (p : ascii -> bool) (s : string) : bool :=
  match s with
  | EmptyString => true
  | String c s' => p c && all_chars p s'
  end.

(** No "." in [s]. *)
Definition no_dot (s : string) : bool :=
  all_chars (fun c => negb (Ascii.eqb c ".")) s.

(** The characters of [str(uuid.uuid4())]: lower-case hexadecimal digits
    and hyphens. *)
Definition uuid_char (c : ascii) : bool :=
  let n := nat_of_ascii c in
  ((48 <=? n)%nat && (n <=? 57)%nat) || ((97 <=? n)%nat && (n <=? 102)%nat)
  || (n =? 45)%nat.

Definition uuid_text (s : string) : bool := all_chars uuid_char s.

(** [s.split(sep)] for a one-character separator: never an empty list. *)
Fixpoint str_split (sep : ascii) (s : string) : list string :=
  match s with
  | EmptyString => [EmptyString]
  | String c s' =>
      if Ascii.eqb c sep then EmptyString :: str_split sep s'
      else match str_split sep s' with
           | h :: t => String c h :: t
           | [] => [String c EmptyString]
           end
  end.

(** [filename.split('.')[-1]] (main.py, line 56) *)
Definition file_ext_of (filename : string) : string :=
  List.last (str_split "." filename) EmptyString.

(** [s.endswith(suffix)]: some tail of [s] is [suffix]. *)
Fixpoint str_endswith (suffix s : string) : bool :=
  String.eqb suffix s ||
  match s with
  | EmptyString => false
  | String _ s' => str_endswith suffix s'
  end.

(** [s.lower()] on ASCII text. *)
Definition ascii_lower (c : ascii) : ascii :=
  let n := nat_of_ascii c in
  if (65 <=? n)%nat && (n <=? 90)%nat then ascii_of_nat (n + 32) else c.

Fixpoint str_lower (s : string) : string :=
  match s with
  | EmptyString => EmptyString
  | String c s' => String (ascii_lower c) (str_lower s')
  end.

(** [os.path.join(a, b)] (posixpath): an absolute [b] replaces [a]; no
    separator is added to an empty [a] or to one that ends in "/". *)
Definition os_path_join (a b : string) : string :=
  if PyStr.startswith "/" b then b
  else if String.eqb a EmptyString || str_endswith "/" a then (a ++ b)%string
  else (a ++ "/" ++ b)%string.

Definition UPLOAD_DIR : string := "uploads".
Definition RESULTS_DIR : string := "results".

(** [sorted(files)]: ascending in the order of [str], which is total and
    antisymmetric, so that the sorted list is unique. *)
Module StringOrder <: Orders.TotalLeBool.
Definition t := string.
Definition leb := String.leb.
Definition leb_total : forall a b, leb a b = true \/ leb b a = true :=
  String.leb_total.
End StringOrder.

Module StringSort := Mergesort.Sort StringOrder.

Definition sorted (l : list string) : list string := StringSort.sort l.

(** ** The endpoints of src/app/main.py *)

(** What is raised inside an endpoint: an exception of [process_video], the
    [AttributeError] of a method call on [None], or an [HTTPException], whose
    detail is a text or the [str] of the exception it reports. *)
Inductive raised : Type :=
| LibraryError (e : exn)
| AttributeError
| HTTPException (status_code : nat) (detail : detail)
with detail : Type :=
| Text (s : string)
| StrOf (e : raised).

Inductive response : Type :=
| FileResponse (path : string) (filename : string).

Inductive outcome : Type :=
| Returns (r : response)
| Raises (e : raised).

(** [if os.path.exists(p): os.remove(p)] *)
Definition remove_if_exists (p : string) : M unit :=
  ex <- os_path_exists p ;;
  if ex then os_remove p else ret tt.

(** What lines 60-61 did: the upload was written, or writing raised, having
    created the file or not. *)
Inductive save_outcome : Type :=
| Saved
| SaveFailed (e : exn) (created : bool).

(** Lines 51-88.  [upload_filename] is [file.filename] ([None] when the
    client sent none), [upload] the content of the uploaded file, [uuid4]
    the text of the identifier drawn at line 57, [save] what became of
    writing the upload to disk.  The call in the worker thread (line 75) is
    awaited, so it is an ordinary call here; every exception of the body
    reaches the handler of line 82. *)
Definition predict_video_endpoint (w : world) (upload_filename : option string)
    (upload : file) (uuid4 : string) (save : save_outcome) (request : request)
    (st : state) : outcome * state :=
  match upload_filename with
  | None =>
      (* file.filename.split raises; file_path is still None in the handler *)
      (Raises (HTTPException 500 (StrOf AttributeError)), st)
  | Some name =>
      let file_ext := file_ext_of name in
      let filename := (uuid4 ++ "." ++ file_ext)%string in
      let file_path := os_path_join UPLOAD_DIR filename in
      match save with
      | SaveFailed e created =>
          let st1 :=
            if created then set_fs (<[file_path := Partial]> (fs st)) st
            else st in
          (Raises (HTTPException 500 (StrOf (LibraryError e))),
           snd (remove_if_exists file_path st1))
      | Saved =>
          let st1 := set_fs (<[file_path := upload]> (fs st)) st in
          let output_filename :=
            ("processed_" ++ PyStr.replace file_ext "mp4" filename)%string in
          let output_path := os_path_join RESULTS_DIR output_filename in
          match process_video w file_path output_path (Some request) st1 with
          | (Ok _, st2) =>
              (Returns (FileResponse output_path output_filename),
               snd (remove_if_exists file_path st2))
          | (Raised e, st2) =>
              (Raises (HTTPException 500 (StrOf (LibraryError e))),
               snd (remove_if_exists file_path st2))
          end
      end
  end.

(** Lines 126-143.  The [HTTPException] of line 131 is raised inside the
    [try] block, and [HTTPException] is an [Exception]: the handler of line
    140 catches it like any other. *)
Definition predict_sample_video (w : world) (filename : string)
    (request : request) (st : state) : outcome * state :=
  let file_path := os_path_join "videos" filename in
  match fs st !! file_path with
  | None =>
      (Raises (HTTPException 500
                 (StrOf (HTTPException 404 (Text "File not found")))), st)
  | Some _ =>
      let output_filename := ("processed_" ++ filename)%string in
      let output_path := os_path_join RESULTS_DIR output_filename in
      match process_video w file_path output_path (Some request) st with
      | (Ok _, st') => (Returns (FileResponse output_path output_filename), st')
      | (Raised e, st') =>
          (Raises (HTTPException 500 (StrOf (LibraryError e))), st')
      end
  end.

(** Lines 90-106.  [listing] is [os.listdir(dir)], or [None] when the
    directory does not exist; a name is kept when its lower-case form ends
    with one of [exts]. *)
Definition accepted (exts : list string) (f : string) : bool :=
  existsb (fun e => str_endswith e (str_lower f)) exts.

Definition list_samples (exts : list string) (listing : option (list string))
  : list string :=
  match listing with
  | Some names => sorted (List.filter (accepted exts) names)
  | None => []
  end.

Definition list_sample_images : option (list string) -> list string :=
  list_samples [".jpg"; ".jpeg"; ".png"].

Definition list_sample_videos : option (list string) -> list string :=
  list_samples [".mp4"; ".avi"; ".mov"].

(** ** The model cache: [get_model] with its global (src/app/model.py, 5-26) *)

Module ModelCache.

Inductive device : Type := cuda | cpu.

(** A YOLO object: the construction it came from, and the device it was
    moved to, if it ever was. *)
Record yolo : Type := { built_by : nat; moved_to : option device }.

(** The machine: whether CUDA is there, and whether the [n]-th construction
    of the model and the move that follows it succeed. *)
Record machine : Type := {
  cuda_is_available : bool;
  YOLO_succeeds : nat -> bool;
  to_succeeds : nat -> bool
}.

Inductive load_error : Type :=
| ConstructorError (n : nat)
| MoveError (n : nat).

(** The global [model] and the number of constructions attempted so far. *)
Record cache : Type := { model : option yolo; constructions : nat }.

Definition empty : cache := {| model := None; constructions := 0 |}.

(** Lines 7-26.  The global is assigned at line 23, before the move of
    line 24. *)
Definition get_model (m : machine) (c : cache) : (load_error + yolo) * cache :=
  match model c with
  | Some y => (inr y, c)
  | None =>
      let device := if cuda_is_available m then cuda else cpu in
      let n := constructions c in
      if YOLO_succeeds m n then
        let built := {| built_by := n; moved_to := None |} in
        if to_succeeds m n then
          let y := {| built_by := n; moved_to := Some device |} in
          (inr y, {| model := Some y; constructions := S n |})
        else
          (inl (MoveError n), {| model := Some built; constructions := S n |})
      else (inl (ConstructorError n), {| model := None; constructions := S n |})
  end.

(** [k] calls in a row; the results, oldest first. *)
Fixpoint calls (m : machine) (k : nat) (c : cache)
  : list (load_error + yolo) * cache :=
  match k with
  | O => ([], c)
  | S k' =>
      let (r, c') := get_model m c in
      let (rs, c'') := calls m k' c' in
      (r :: rs, c'')
  end.

End ModelCache.

(** Sample machines. *)

(** A machine with CUDA on which everything succeeds. *)
Definition cuda_machine : ModelCache.machine :=
  {| ModelCache.cuda_is_available := true;
     ModelCache.YOLO_succeeds := fun _ => true;
     ModelCache.to_succeeds := fun _ => true |}.

(** A machine with CUDA on which the first move to the device fails. *)
Definition first_move_fails : ModelCache.machine :=
  {| ModelCache.cuda_is_available := true;
     ModelCache.YOLO_succeeds := fun _ => true;
     ModelCache.to_succeeds := fun n => negb (n =? 0)%nat |}.

(** A machine without CUDA on which the first construction fails. *)
Definition first_construction_fails : ModelCache.machine :=
  {| ModelCache.cuda_is_available := false;
     ModelCache.YOLO_succeeds := fun n => negb (n =? 0)%nat;
     ModelCache.to_succeeds := fun _ => true |}.

(** * Properties *)

(** ** Strings *)

Example replace_typical :
  PyStr.replace ".mp4" "_temp.mp4" "results/processed_ab12.mp4"
  = "results/processed_ab12_temp.mp4".
Proof. reflexivity. Qed.

Example replace_twice :
  PyStr.replace ".mp4" "_temp.mp4" "a.mp4.mp4" = "a_temp.mp4_temp.mp4".
Proof. reflexivity. Qed.

Example replace_absent :
  PyStr.replace ".mp4" "_temp.mp4" "results/processed_clip.avi"
  = "results/processed_clip.avi".
Proof. reflexivity. Qed.

Example replace_empty_old : PyStr.replace "" "-" "abc" = "-a-b-c-".
Proof. reflexivity. Qed.

Section Replace.

Variables old new : string.

(** A string without [old] is returned as it is. *)
Lemma replace_from_absent (s : string) :
  PyStr.contains old s = false -> PyStr.replace_from old new 0 s = s.
Proof.
  induction s as [|c s IH]; intros H; [reflexivity|].
  simpl in H. apply orb_false_elim in H as [Hhead Htail].
  change (PyStr.replace_from old new 0 (String c s))
    with (if PyStr.startswith old (String c s)
          then String.append new
                 (PyStr.replace_from old new (String.length old - 1) s)
          else String c (PyStr.replace_from old new 0 s)).
  rewrite Hhead, IH; auto.
Qed.

Lemma replace_absent_id (s : string) :
  PyStr.contains old s = false -> PyStr.replace old new s = s.
Proof.
  intros H. unfold PyStr.replace. destruct old as [|a o] eqn:E.
  - destruct s; discriminate H.
  - rewrite <- E in *. now apply replace_from_absent.
Qed.

End Replace.

(** The dot of ".mp4" does not occur again inside it, so a match cannot
    straddle the end of [a]. *)
Lemma startswith_mp4_app (a b : string) :
  a <> EmptyString ->
  PyStr.startswith ".mp4" (a ++ ".mp4" ++ b)%string = true ->
  PyStr.startswith ".mp4" a = true.
Proof.
  intros Hne.
  destruct a as [|c1 [|c2 [|c3 [|c4 a]]]]; [congruence| | | |]; simpl;
    repeat match goal with
           | |- context [Ascii.eqb ?x ?y] => destruct (Ascii.eqb x y)
           end; auto.
Qed.

(** The first occurrence is replaced and the scan goes on behind it. *)
Lemma temp_path_of_app (a b : string) :
  PyStr.contains ".mp4" a = false ->
  temp_path_of (a ++ ".mp4" ++ b) = (a ++ "_temp.mp4" ++ temp_path_of b)%string.
Proof.
  unfold temp_path_of, PyStr.replace.
  induction a as [|c a IH]; intros H.
  - reflexivity.
  - pose proof H as H'. simpl in H'. apply orb_false_elim in H' as [Hhead Htail].
    assert (Hs : PyStr.startswith ".mp4" (String c a ++ ".mp4" ++ b)%string = false).
    { destruct (PyStr.startswith ".mp4" (String c a ++ ".mp4" ++ b)%string) eqn:E;
        [|reflexivity].
      apply startswith_mp4_app in E; [|discriminate].
      simpl in E. simpl in Hhead. congruence. }
    change (String c a ++ ".mp4" ++ b)%string
      with (String c (a ++ ".mp4" ++ b)%string) in *.
    change (PyStr.replace_from ".mp4" "_temp.mp4" 0 (String c (a ++ ".mp4" ++ b)))
      with (if PyStr.startswith ".mp4" (String c (a ++ ".mp4" ++ b))
            then String.append "_temp.mp4"
                   (PyStr.replace_from ".mp4" "_temp.mp4" 3 (a ++ ".mp4" ++ b))
            else String c (PyStr.replace_from ".mp4" "_temp.mp4" 0 (a ++ ".mp4" ++ b))).
    rewrite Hs, (IH Htail). reflexivity.
Qed.

Lemma temp_path_of_suffix (stem : string) :
  PyStr.contains ".mp4" stem = false ->
  temp_path_of (stem ++ ".mp4") = (stem ++ "_temp.mp4")%string.
Proof.
  intros H. apply (temp_path_of_app stem EmptyString) in H. exact H.
Qed.

Lemma append_inj_l (a b c : string) : (a ++ b = a ++ c)%string -> b = c.
Proof.
  induction a as [|x a IH]; simpl; intros H; [exact H|].
  injection H as H. auto.
Qed.


(** ** What a statement leaves unchanged *)

Section Stable.

Variable R : state -> state -> Prop.
Hypothesis R_refl : forall st, R st st.
Hypothesis R_trans : forall a b c, R a b -> R b c -> R a c.

Lemma stable_ret {A} (a : A) : stable R (ret a).
Proof. intros st. apply R_refl. Qed.

Lemma stable_raise {A} (e : exn) : stable R (@raise A e).
Proof. intros st. apply R_refl. Qed.

Lemma stable_bind {A B} (c : M A) (k : A -> M B) :
  stable R c -> (forall a, stable R (k a)) -> stable R (bind c k).
Proof.
  intros Hc Hk st. unfold bind. specialize (Hc st).
  destruct (c st) as [[a|e] st']; simpl in *; [|exact Hc].
  eapply R_trans; [exact Hc|apply Hk].
Qed.

Lemma stable_try_except {A} (body : M A) (handler : exn -> M A) :
  stable R body -> (forall e, stable R (handler e)) ->
  stable R (try_except body handler).
Proof.
  intros Hb Hh st. unfold try_except. specialize (Hb st).
  destruct (body st) as [[a|e] st']; simpl in *; [exact Hb|].
  eapply R_trans; [exact Hb|apply Hh].
Qed.

Lemma stable_if {A} (b : bool) (c1 c2 : M A) :
  stable R c1 -> stable R c2 -> stable R (if b then c1 else c2).
Proof. destruct b; auto. Qed.

Lemma stable_modify (f : state -> state) :
  (forall st, R st (f st)) -> stable R (modify f).
Proof. intros H st. apply H. Qed.

End Stable.

Lemma handles_kept_refl st : handles_kept st st.
Proof. split; reflexivity. Qed.

Lemma handles_kept_trans a b c :
  handles_kept a b -> handles_kept b c -> handles_kept a c.
Proof. unfold handles_kept. intros [] []. split; congruence. Qed.

Lemma counters_kept_refl st : counters_kept st st.
Proof. split; reflexivity. Qed.

Lemma counters_kept_trans a b c :
  counters_kept a b -> counters_kept b c -> counters_kept a c.
Proof. unfold counters_kept. intros [] []. split; congruence. Qed.

Lemma trace_grows_refl P st : trace_grows P st st.
Proof. exists []. split; [now rewrite app_nil_r|constructor]. Qed.

Lemma trace_grows_trans P a b c :
  trace_grows P a b -> trace_grows P b c -> trace_grows P a c.
Proof.
  intros (t1 & E1 & F1) (t2 & E2 & F2). exists (t1 ++ t2)%list. split.
  - rewrite E2, E1. now rewrite app_assoc.
  - apply Forall_app. now split.
Qed.

Lemma trace_grows_push P e st : P e -> trace_grows P st (push e st).
Proof. intros H. exists [e]. split; [reflexivity|]. repeat constructor. exact H. Qed.

Lemma trace_grows_same P st st' : trace st' = trace st -> trace_grows P st st'.
Proof. intros E. exists []. split; [now rewrite app_nil_r|constructor]. Qed.

(** The statements of the program, for a relation that the assignments to
    the file system and the [allowed] events respect. *)
Section Frame.

Variable R : state -> state -> Prop.
Variable allowed : event -> Prop.
Hypothesis R_refl : forall st, R st st.
Hypothesis R_trans : forall a b c, R a b -> R b c -> R a c.
Hypothesis R_fs : forall m st, R st (set_fs m st).
Hypothesis R_ticks : forall n st, R st (set_ticks n st).
Hypothesis R_count : forall n st, R st (set_frame_count n st).
Hypothesis R_event : forall e st, allowed e -> R st (push e st).

Ltac structure leaf :=
  repeat first
    [ solve [leaf]
    | apply (stable_ret R R_refl)
    | apply (stable_raise R R_refl)
    | apply (stable_bind R R_trans)
    | apply (stable_try_except R R_trans)
    | apply stable_if
    | match goal with |- forall _, _ => intro end ].

Lemma stable_emit e : allowed e -> stable R (emit e).
Proof. intros H st. apply R_event, H. Qed.

Lemma stable_os_path_exists p : stable R (os_path_exists p).
Proof. intros st. apply R_refl. Qed.

Lemma stable_get_frame_count : stable R get_frame_count.
Proof. intros st. apply R_refl. Qed.

Lemma stable_cap_isOpened : stable R cap_isOpened.
Proof. intros st. apply R_refl. Qed.

Lemma stable_os_rename src dst : stable R (os_rename src dst).
Proof. intros st. unfold os_rename. destruct (fs st !! src); simpl; auto. Qed.

Lemma stable_shutil_copy2 src dst : stable R (shutil_copy2 src dst).
Proof.
  intros st. unfold shutil_copy2.
  destruct (fs st !! src); [destruct (String.eqb src dst)|]; simpl; auto.
Qed.

Lemma stable_os_remove p : stable R (os_remove p).
Proof. intros st. unfold os_remove. destruct (fs st !! p); simpl; auto. Qed.

Lemma stable_subprocess_run_ffmpeg w input output :
  allowed (EvFfmpeg input output) ->
  stable R (subprocess_run_ffmpeg w input output).
Proof.
  intros H. unfold subprocess_run_ffmpeg.
  apply (stable_bind R R_trans); [now apply stable_emit|].
  intros _ st.
  destruct (ffmpeg w) as [|code [|]|]; [destruct (fs st !! input)| | |];
    simpl; auto.
Qed.

Lemma stable_transcode w output_path :
  (forall m, allowed (EvPrint m)) ->
  (forall i o, allowed (EvFfmpeg i o)) ->
  stable R (transcode w output_path).
Proof.
  intros Hp Hf. unfold transcode, print.
  structure ltac:(auto using stable_emit, stable_os_path_exists,
    stable_os_rename, stable_shutil_copy2, stable_os_remove,
    stable_subprocess_run_ffmpeg).
Qed.

Lemma stable_time_time w :
  (forall t, allowed (EvClock t)) -> stable R (time_time w).
Proof.
  intros H st. unfold time_time. simpl.
  eapply R_trans; [apply R_ticks|apply R_event, H].
Qed.

Lemma stable_model_track f : stable R (model_track f).
Proof. unfold model_track. destruct (infer f); structure idtac. Qed.

Lemma stable_plot f o : stable R (plot f o).
Proof. unfold plot. destruct o; structure idtac. Qed.

Lemma stable_out_write p f img :
  allowed (EvWrite img) -> stable R (out_write p f img).
Proof.
  intros H. unfold out_write. destruct (write_raises f); [structure idtac|].
  intros st. simpl. eapply R_trans; [apply R_fs|apply R_event, H].
Qed.

Lemma stable_frame_loop w output_path start_time frames :
  (forall t, allowed (EvClock t)) ->
  (forall r, allowed (EvRead r)) ->
  (forall i, allowed (EvWrite i)) ->
  (forall m, allowed (EvPrint m)) ->
  stable R (frame_loop w output_path start_time frames).
Proof.
  intros Hc Hr Hw Hp.
  induction frames as [|f rest IH]; cbn [frame_loop]; unfold print;
    structure ltac:(auto using stable_emit, stable_cap_isOpened,
      stable_time_time, stable_model_track, stable_plot, stable_out_write).
  intros st. apply R_count.
Qed.

End Frame.

(** *** Projections of a trace *)

Lemma reads_app (a b : list event) : reads (a ++ b) = (reads a ++ reads b)%list.
Proof.
  induction a as [|e a IH]; [reflexivity|].
  destruct e; simpl; rewrite IH; reflexivity.
Qed.

Lemma writer_fps_app (a b : list event) :
  writer_fps (a ++ b) = (writer_fps a ++ writer_fps b)%list.
Proof.
  induction a as [|e a IH]; [reflexivity|].
  destruct e; simpl; rewrite IH; reflexivity.
Qed.

Lemma reads_transcode_events (tr : list event) :
  Forall transcode_event tr -> reads tr = [].
Proof.
  induction 1 as [|e tr He _ IH]; [reflexivity|].
  destruct e; simpl in *; tauto.
Qed.

Lemma writer_fps_transcode_events (tr : list event) :
  Forall transcode_event tr -> writer_fps tr = [].
Proof.
  induction 1 as [|e tr He _ IH]; [reflexivity|].
  destruct e; simpl in *; tauto.
Qed.

Lemma writer_fps_loop_events (tr : list event) :
  Forall loop_event tr -> writer_fps tr = [].
Proof.
  induction 1 as [|e tr He _ IH]; [reflexivity|].
  destruct e; simpl in *; tauto.
Qed.

(** *** The conversion step and the loop, framed *)

Lemma transcode_handles w output_path :
  stable handles_kept (transcode w output_path).
Proof.
  apply stable_transcode with (allowed := fun _ => True);
    first [ exact handles_kept_refl | exact handles_kept_trans
          | intros; split; reflexivity | intros; exact I ].
Qed.

Lemma transcode_counters w output_path :
  stable counters_kept (transcode w output_path).
Proof.
  apply stable_transcode with (allowed := fun _ => True);
    first [ exact counters_kept_refl | exact counters_kept_trans
          | intros; split; reflexivity | intros; exact I ].
Qed.

Lemma transcode_trace w output_path :
  stable (trace_grows transcode_event) (transcode w output_path).
Proof.
  apply stable_transcode with (allowed := transcode_event);
    first [ exact (trace_grows_refl _) | exact (trace_grows_trans _)
          | exact (trace_grows_push _)
          | intros; now apply trace_grows_same | intros; exact I ].
Qed.

Lemma frame_loop_handles w output_path start_time frames :
  stable handles_kept (frame_loop w output_path start_time frames).
Proof.
  apply stable_frame_loop with (allowed := fun _ => True);
    first [ exact handles_kept_refl | exact handles_kept_trans
          | intros; split; reflexivity | intros; exact I ].
Qed.

Lemma frame_loop_trace w output_path start_time frames :
  stable (trace_grows loop_event) (frame_loop w output_path start_time frames).
Proof.
  apply stable_frame_loop with (allowed := loop_event);
    first [ exact (trace_grows_refl _) | exact (trace_grows_trans _)
          | exact (trace_grows_push _)
          | intros; now apply trace_grows_same | intros; exact I ].
Qed.

(** ** One iteration of the loop *)

Lemma Qgt_bool_false (a b : Q) : (a <= b)%Q -> Qgt_bool a b = false.
Proof. intros H. unfold Qgt_bool. apply Qle_bool_iff in H. now rewrite H. Qed.

Lemma Qgt_bool_true (a b : Q) : (b < a)%Q -> Qgt_bool a b = true.
Proof.
  intros H. unfold Qgt_bool. destruct (Qle_bool a b) eqn:E; [|reflexivity].
  apply Qle_bool_iff in E. exfalso. exact (Qlt_not_le _ _ H E).
Qed.

Section Iteration.

Variable w : world.
Variable output_path : string.
Variable start_time : Q.

Local Abbreviation loop := (frame_loop w output_path start_time).
Local Abbreviation frames_done := (after_frames w output_path).

(** [while cap.isOpened()] with a capture that is not open *)
Lemma frame_loop_not_open frames st :
  is_open (source st) = false -> loop frames st = (Ok tt, st).
Proof.
  intros H. destruct frames; cbn [frame_loop];
    unfold bind, cap_isOpened; rewrite H; reflexivity.
Qed.

(** Over budget at the top of the loop: [break], nothing is read. *)
Lemma frame_loop_timeout frames st :
  is_open (source st) = true ->
  (TIMEOUT_LIMIT < clock w (ticks st) - start_time)%Q ->
  loop frames st = (Ok tt, push (EvPrint MsgTimeout) (after_check w st)).
Proof.
  intros Ho Ht. apply Qgt_bool_true in Ht.
  destruct frames; cbn [frame_loop];
    unfold bind, cap_isOpened, time_time; rewrite Ho; cbn [negb];
    rewrite Ht; reflexivity.
Qed.

(** Within budget, nothing left to read: [ret] is [False], [break]. *)
Lemma frame_loop_end_of_stream st :
  is_open (source st) = true ->
  (clock w (ticks st) - start_time <= TIMEOUT_LIMIT)%Q ->
  loop [] st
  = (Ok tt, push (EvPrint MsgEndOfStream) (push (EvRead None) (after_check w st))).
Proof.
  intros Ho Ht. apply Qgt_bool_false in Ht.
  cbn [frame_loop]. unfold bind, cap_isOpened, time_time.
  rewrite Ho; cbn [negb]; rewrite Ht. reflexivity.
Qed.

(** Within budget, a frame that provokes no exception: it is written, the
    counter goes up, and the loop goes on with the rest. *)
Lemma frame_loop_frame f rest st :
  is_open (source st) = true ->
  (clock w (ticks st) - start_time <= TIMEOUT_LIMIT)%Q ->
  frame_exn f = None ->
  loop (f :: rest) st = loop rest (after_frame w output_path f st).
Proof.
  intros Ho Ht Hf. apply Qgt_bool_false in Ht.
  cbn [frame_loop]. unfold bind at 1. unfold cap_isOpened. rewrite Ho. cbn [negb].
  unfold bind at 1. unfold time_time. rewrite Ht.
  unfold frame_exn in Hf. unfold after_frame, written_image, after_read, after_check.
  unfold bind, emit, modify, model_track, plot, out_write.
  destruct (infer f); try discriminate Hf;
    destruct (write_raises f); try discriminate Hf; reflexivity.
Qed.

(** Within budget, a frame that provokes an exception: the exception
    leaves the loop; the frame is not written and not counted, and the rest
    is not read. *)
Lemma frame_loop_raises f rest st e :
  is_open (source st) = true ->
  (clock w (ticks st) - start_time <= TIMEOUT_LIMIT)%Q ->
  frame_exn f = Some e ->
  loop (f :: rest) st = (Raised e, after_read w f st).
Proof.
  intros Ho Ht Hf. apply Qgt_bool_false in Ht.
  cbn [frame_loop]. unfold bind at 1. unfold cap_isOpened. rewrite Ho. cbn [negb].
  unfold bind at 1. unfold time_time. rewrite Ht.
  unfold frame_exn in Hf. unfold after_read, after_check.
  unfold bind, emit, modify, model_track, plot, out_write.
  destruct (infer f); try discriminate Hf;
    destruct (write_raises f); try discriminate Hf;
    injection Hf as <-; reflexivity.
Qed.

Lemma after_frames_app (a b : list frame_spec) st :
  frames_done (a ++ b) st = frames_done b (frames_done a st).
Proof. apply fold_left_app. Qed.

Lemma after_frames_source done st : source (frames_done done st) = source st.
Proof. revert st. induction done as [|f done IH]; intros st; [reflexivity|].
       simpl. now rewrite IH. Qed.

Lemma after_frames_sink done st : sink (frames_done done st) = sink st.
Proof. revert st. induction done as [|f done IH]; intros st; [reflexivity|].
       simpl. now rewrite IH. Qed.

Lemma after_frames_ticks done st :
  ticks (frames_done done st) = ticks st + length done.
Proof.
  revert st. induction done as [|f done IH]; intros st; simpl; [lia|].
  rewrite IH. simpl. lia.
Qed.

Lemma after_frames_frame_count done st :
  frame_count (frames_done done st) = frame_count st + length done.
Proof.
  revert st. induction done as [|f done IH]; intros st; simpl; [lia|].
  rewrite IH. simpl. lia.
Qed.

Lemma after_frames_trace done st :
  trace_grows loop_event st (frames_done done st).
Proof.
  revert st. induction done as [|f done IH]; intros st; simpl.
  - apply trace_grows_refl.
  - eapply trace_grows_trans; [|apply IH].
    exists [EvClock (clock w (ticks st)); EvRead (Some (frame_id f));
            EvWrite (written_image f)].
    split; [simpl; now rewrite <- !app_assoc|].
    repeat constructor.
Qed.

Lemma after_frames_reads done st :
  reads (trace (frames_done done st))
  = (reads (trace st) ++ map (fun f => Some (frame_id f)) done)%list.
Proof.
  revert st. induction done as [|f done IH]; intros st; simpl.
  - now rewrite app_nil_r.
  - rewrite IH. simpl. rewrite !reads_app. simpl.
    rewrite !app_nil_r, <- app_assoc. reflexivity.
Qed.

(** The frames are appended to the container, in order. *)
Lemma after_frames_output done st c l :
  fs st !! output_path = Some (RawVideo c l) ->
  fs (frames_done done st) !! output_path
  = Some (RawVideo c (l ++ map written_image done)).
Proof.
  revert st l. induction done as [|f done IH]; intros st l H; simpl.
  - now rewrite app_nil_r.
  - rewrite (IH _ (l ++ [written_image f])%list).
    + now rewrite <- app_assoc.
    + simpl. rewrite lookup_alter_eq, H. reflexivity.
Qed.

Lemma after_frames_other_paths done st p :
  p <> output_path -> fs (frames_done done st) !! p = fs st !! p.
Proof.
  intros Hp. revert st. induction done as [|f done IH]; intros st; simpl;
    [reflexivity|].
  rewrite IH. simpl. now rewrite lookup_alter_ne.
Qed.

(** Frames that provoke no exception and are reached within budget go
    through one after the other. *)
Lemma frame_loop_prefix done rest st :
  is_open (source st) = true ->
  Forall (fun f => frame_exn f = None) done ->
  (forall i, i < length done ->
             (clock w (ticks st + i) - start_time <= TIMEOUT_LIMIT)%Q) ->
  loop (done ++ rest) st = loop rest (frames_done done st).
Proof.
  revert st. induction done as [|f done IH]; intros st Ho Hok Ht;
    [reflexivity|].
  inversion Hok as [|? ? Hf Hok']; subst.
  simpl app. rewrite frame_loop_frame; auto.
  - apply IH; auto.
    intros i Hi. replace (ticks _ + i) with (ticks st + S i) by (simpl; lia).
    apply Ht. simpl. lia.
  - specialize (Ht 0). rewrite Nat.add_0_r in Ht. apply Ht. simpl. lia.
Qed.

End Iteration.

(** ** The phases of a run *)

(** The loop never lets an exception out: the handler of line 129 prints it,
    and the [finally] clause runs either way. *)
Lemma run_loop_eq w output_path frames st :
  run_loop w output_path frames st
  = match frame_loop w output_path (clock w (ticks st)) frames (loop_entry w st) with
    | (Ok _, s) => (Ok tt, drained s)
    | (Raised e, s) =>
        (Ok tt, drained (push (EvPrint (MsgProcessingError (frame_count s) e)) s))
    end.
Proof.
  unfold run_loop, bind, time_time, modify, try_finally, try_except. simpl.
  fold (after_check w st). fold (loop_entry w st).
  destruct (frame_loop _ _ _ _ _) as [[[]|e] s]; reflexivity.
Qed.

Lemma run_loop_returns w output_path frames st :
  fst (run_loop w output_path frames st) = Ok tt.
Proof.
  rewrite run_loop_eq. destruct (frame_loop _ _ _ _ _) as [[?|?] ?]; reflexivity.
Qed.

Lemma run_loop_releases w output_path frames st :
  source (snd (run_loop w output_path frames st)) = Released /\
  sink (snd (run_loop w output_path frames st)) = Released.
Proof.
  rewrite run_loop_eq. destruct (frame_loop _ _ _ _ _) as [[?|?] ?]; split; reflexivity.
Qed.

Lemma open_writer_eq w output_path fps width height st :
  open_writer w output_path fps width height st
  = match opening_codec w fps width height with
    | Some c =>
        (Ok true,
         {| fs := <[output_path := RawVideo c []]> (fs st);
            ticks := ticks st; source := source st; sink := Open;
            frame_count := frame_count st;
            trace := trace st ++ opening_events w fps width height |})
    | None =>
        (Ok false,
         {| fs := fs st; ticks := ticks st; source := source st; sink := NotOpen;
            frame_count := frame_count st;
            trace := trace st ++ opening_events w fps width height |})
    end.
Proof.
  unfold open_writer, opening_codec, opening_events, bind, VideoWriter,
    out_isOpened, ret.
  destruct (writer_opens w mp4v fps width height); simpl.
  - reflexivity.
  - destruct (writer_opens w XVID fps width height);
      unfold push, set_sink, set_fs; simpl; rewrite <- app_assoc; reflexivity.
Qed.

(** The conversion step never lets an exception out either. *)
Lemma transcode_returns w output_path st :
  fst (transcode w output_path st) = Ok tt.
Proof.
  unfold transcode. destruct (which_ffmpeg w); [|reflexivity].
  unfold try_except.
  match goal with |- context [match ?b st with _ => _ end] =>
    destruct (b st) as [[[]|e] s] end; [reflexivity|].
  unfold bind, print, emit, modify, os_path_exists, os_rename. simpl.
  destruct (fs s !! temp_path_of output_path) eqn:E; simpl; [|reflexivity].
  destruct (fs s !! output_path); simpl; [reflexivity|].
  rewrite E. reflexivity.
Qed.

(** *** The states a run goes through *)

Section Run.

Variable w : world.
Variables video_path output_path : string.

Local Abbreviation cap := (VideoCapture w video_path).

(** The three ways a run ends. *)
Lemma process_video_eq request st :
  process_video w video_path output_path request st
  = if model_loads w then
      match run_codec w video_path with
      | Some _ => (Ok output_path, final_state w video_path output_path st)
      | None =>
          (Raised (WriterOpenFailed output_path),
           push EvCapRelease
             (set_source Released (opened_state w video_path output_path st)))
      end
    else (Raised ModelLoadError, st).
Proof.
  unfold process_video, get_model.
  destruct (model_loads w); [|reflexivity].
  unfold bind at 1. unfold ret at 1.
  unfold bind at 1. unfold modify at 1.
  unfold bind at 1.
  unfold final_state, finished_state, looped_state, opened_state, run_codec.
  rewrite open_writer_eq.
  destruct (opening_codec _ _ _ _) as [c|]; cbn [negb snd].
  - unfold bind at 1.
    match goal with |- context [run_loop ?a ?b ?c ?d] =>
      pose proof (run_loop_returns a b c d) as Hr;
      destruct (run_loop a b c d) as [r s] end.
    simpl in Hr. subst r. cbn [snd].
    unfold bind at 1. unfold get_frame_count at 1.
    unfold bind at 1. unfold print at 1, emit at 1, modify at 1.
    unfold bind at 1.
    match goal with |- context [transcode ?a ?b ?c] =>
      pose proof (transcode_returns a b c) as Ht;
      destruct (transcode a b c) as [r' s'] end.
    simpl in Ht. subst r'. reflexivity.
  - reflexivity.
Qed.

End Run.

(** ** The conversion step *)

Ltac fs_eval :=
  repeat progress
    (cbn [fs set_fs push fst snd negb andb Z.eqb Pos.eqb trace];
     rewrite ?lookup_insert_eq, ?lookup_delete_eq;
     try rewrite lookup_insert_ne by congruence;
     try rewrite lookup_delete_ne by congruence).

Ltac unfold_transcode :=
  unfold transcode, try_except, bind, os_rename, subprocess_run_ffmpeg, bind,
    print, emit, modify, shutil_copy2, os_path_exists, os_remove, ret.

(** With a temporary path that differs from the output path the step ends
    with one file at the output path, carrying the frames that were there,
    and none at the temporary path, however the tool ends. *)
Lemma transcode_keeps_output w output_path st f :
  which_ffmpeg w = true ->
  temp_path_of output_path <> output_path ->
  fs st !! output_path = Some f ->
  let m := fs (snd (transcode w output_path st)) in
  m !! output_path = Some (match ffmpeg w with ToolOk => H264 f | _ => f end) /\
  m !! temp_path_of output_path = None /\
  (forall p, p <> output_path -> p <> temp_path_of output_path ->
             m !! p = fs st !! p).
Proof.
  intros Hw Hne Hf. unfold_transcode. rewrite Hw.
  set (temp := temp_path_of output_path) in *.
  assert (Heqb : String.eqb temp output_path = false) by now apply String.eqb_neq.
  rewrite Hf.
  destruct (ffmpeg w) as [|code debris|]; [|destruct debris|];
    fs_eval; rewrite ?Heqb; fs_eval;
    repeat split; intros; fs_eval; reflexivity.
Qed.

Ltac in_trace := rewrite ?in_app_iff; simpl; tauto.


(** With a temporary path equal to the output path, a tool run that succeeds
    is followed by the removal of the file it has just written. *)
Lemma transcode_same_path_removes_output w output_path st f :
  which_ffmpeg w = true ->
  temp_path_of output_path = output_path ->
  ffmpeg w = ToolOk ->
  fs st !! output_path = Some f ->
  fs (snd (transcode w output_path st)) !! output_path = None.
Proof.
  intros Hw Hsame Hok Hf. unfold_transcode. rewrite Hw, Hsame, Hf, Hok.
  fs_eval. reflexivity.
Qed.

(** ** From the phases to the run *)

Lemma trace_grows_In P a b e :
  trace_grows P a b -> In e (trace a) -> In e (trace b).
Proof. intros (tr & E & _) H. rewrite E. apply in_app_iff. now left. Qed.

Section RunFacts.

Variable w : world.
Variables video_path output_path : string.

Local Abbreviation cap := (VideoCapture w video_path).
Local Abbreviation opened := (opened_state w video_path output_path).
Local Abbreviation looped := (looped_state w video_path output_path).
Local Abbreviation finished := (finished_state w video_path output_path).
Local Abbreviation final := (final_state w video_path output_path).

Lemma opened_state_eq st :
  opened st
  = {| fs := match run_codec w video_path with
             | Some c => <[output_path := RawVideo c []]> (fs st)
             | None => fs st
             end;
       ticks := ticks st;
       source := if cap_opened cap then Open else NotOpen;
       sink := match run_codec w video_path with
               | Some _ => Open
               | None => NotOpen
               end;
       frame_count := frame_count st;
       trace := trace st ++ opening_events w (valid_fps (cap_fps cap))
                              (cap_width cap) (cap_height cap) |}.
Proof.
  unfold opened_state, run_codec. rewrite open_writer_eq.
  destruct (opening_codec _ _ _ _); reflexivity.
Qed.

Lemma looped_state_eq st :
  looped st
  = match loop_result w video_path output_path st with
    | (Ok _, s) => drained s
    | (Raised e, s) =>
        drained (push (EvPrint (MsgProcessingError (frame_count s) e)) s)
    end.
Proof.
  unfold looped_state. rewrite run_loop_eq.
  unfold loop_result, entry_state.
  replace (ticks (opened st)) with (ticks st) by now rewrite opened_state_eq.
  destruct (frame_loop _ _ _ _ _) as [[?|?] ?]; reflexivity.
Qed.

Lemma final_state_handles st :
  source (final st) = Released /\ sink (final st) = Released.
Proof.
  destruct (transcode_handles w output_path (finished st)) as [Hs Hk].
  unfold final_state. rewrite Hs, Hk. unfold finished_state. simpl.
  apply run_loop_releases.
Qed.

Lemma final_state_counters st :
  ticks (final st) = ticks (looped st) /\
  frame_count (final st) = frame_count (looped st).
Proof.
  destruct (transcode_counters w output_path (finished st)) as [Ht Hc].
  unfold final_state. rewrite Ht, Hc. split; reflexivity.
Qed.

Lemma final_state_trace st :
  exists tr,
    trace (final st)
    = (trace (looped st)
         ++ EvPrint (MsgFinished (frame_count (looped st))) :: tr)%list /\
    Forall transcode_event tr.
Proof.
  destruct (transcode_trace w output_path (finished st)) as (tr & E & F).
  exists tr. split; [|exact F].
  unfold final_state. rewrite E. unfold finished_state. simpl.
  now rewrite <- app_assoc.
Qed.

Lemma final_state_reads st : reads (trace (final st)) = reads (trace (looped st)).
Proof.
  destruct (final_state_trace st) as (tr & E & F). rewrite E, reads_app. simpl.
  rewrite (reads_transcode_events _ F). apply app_nil_r.
Qed.

Lemma final_state_In st e : In e (trace (looped st)) -> In e (trace (final st)).
Proof.
  destruct (final_state_trace st) as (tr & E & _). rewrite E.
  intros H. apply in_app_iff. now left.
Qed.

(** The file at the output path after the conversion step, when the step
    is skipped or has a temporary path of its own. *)
Lemma final_state_output st f :
  which_ffmpeg w = false \/ temp_path_of output_path <> output_path ->
  fs (looped st) !! output_path = Some f ->
  exists f', fs (final st) !! output_path = Some f' /\
             frames_of f' = frames_of f.
Proof.
  intros Hcase Hf. unfold final_state.
  destruct (which_ffmpeg w) eqn:Hw.
  - destruct Hcase as [?|Hne]; [discriminate|].
    destruct (transcode_keeps_output w output_path (finished st) f Hw Hne Hf)
      as (Ho & _ & _).
    rewrite Ho. eexists; split; [reflexivity|].
    destruct (ffmpeg w); reflexivity.
  - unfold transcode. rewrite Hw. exists f. split; [exact Hf|reflexivity].
Qed.

End RunFacts.

Lemma writer_fps_opening_events w fps width height :
  writer_fps (opening_events w fps width height)
  = if writer_opens w mp4v fps width height then [fps] else [fps; fps].
Proof. unfold opening_events. destruct (writer_opens w mp4v _ _ _); reflexivity. Qed.

Lemma looped_state_releases w video_path output_path st :
  In EvCapRelease (trace (looped_state w video_path output_path st)) /\
  In EvOutRelease (trace (looped_state w video_path output_path st)).
Proof.
  rewrite looped_state_eq. destruct (loop_result _ _ _ _) as [[?|?] s];
    split; simpl; in_trace.
Qed.

Lemma looped_state_writer_fps w video_path output_path st :
  writer_fps (trace (looped_state w video_path output_path st))
  = writer_fps (trace (opened_state w video_path output_path st)).
Proof.
  rewrite looped_state_eq. unfold loop_result.
  pose proof (frame_loop_trace w output_path (clock w (ticks st))
                (cap_frames (VideoCapture w video_path))
                (entry_state w video_path output_path st)) as (tr & E & F).
  destruct (frame_loop _ _ _ _ _) as [[?|?] s]; simpl in *;
    rewrite E, !writer_fps_app, (writer_fps_loop_events _ F); simpl;
    rewrite !app_nil_r; reflexivity.
Qed.

Lemma final_state_writer_fps w video_path output_path st :
  writer_fps (trace (final_state w video_path output_path st))
  = writer_fps (trace (opened_state w video_path output_path st)).
Proof.
  destruct (final_state_trace w video_path output_path st) as (tr & E & F).
  rewrite E, writer_fps_app. simpl.
  rewrite (writer_fps_transcode_events _ F), app_nil_r.
  apply looped_state_writer_fps.
Qed.

(** * The claims *)

(** ** C3: codec fallback *)

(** C3.  Lines 73-86 implement the sink contract for the attempt list
    [mp4v; XVID]: the attempts made and their order, the outcome, and the
    container created are those of [spec_sink_open]; the open fails exactly
    when every codec fails; and a run raises the writer-open error exactly
    when that happens (the model being loaded). *)
Theorem sink_open_tries_codecs_in_order
    (w : world) (output_path : string) (fps : spec_float) (width height : Z)
    (st : state) :
  let opens := fun c => writer_opens w c fps width height in
  let spec := spec_sink_open opens [mp4v; XVID] in
  let r := open_writer w output_path fps width height st in
  fst r = Ok (match fst spec with Some _ => true | None => false end) /\
  trace (snd r)
  = (trace st ++ map (fun a => EvWriter (fst a) fps width height (snd a)) (snd spec))%list /\
  fs (snd r) = match fst spec with
               | Some c => <[output_path := RawVideo c []]> (fs st)
               | None => fs st
               end /\
  (fst spec = None <-> opens mp4v = false /\ opens XVID = false) /\
  (forall video_path request,
     let cap := VideoCapture w video_path in
     let opens' := fun c =>
       writer_opens w c (valid_fps (cap_fps cap)) (cap_width cap) (cap_height cap) in
     fst (process_video w video_path output_path request st)
     = if model_loads w then
         match fst (spec_sink_open opens' [mp4v; XVID]) with
         | Some _ => Ok output_path
         | None => Raised (WriterOpenFailed output_path)
         end
       else Raised ModelLoadError).
Proof.
  cbv zeta. rewrite open_writer_eq. unfold opening_codec, opening_events.
  repeat split.
  - simpl. destruct (writer_opens w mp4v _ _ _); [reflexivity|].
    simpl. destruct (writer_opens w XVID _ _ _); reflexivity.
  - simpl. destruct (writer_opens w mp4v _ _ _); [reflexivity|].
    simpl. destruct (writer_opens w XVID _ _ _); reflexivity.
  - simpl. destruct (writer_opens w mp4v _ _ _); [reflexivity|].
    simpl. destruct (writer_opens w XVID _ _ _); reflexivity.
  - simpl in *. destruct (writer_opens w mp4v _ _ _); [discriminate|reflexivity].
  - simpl in *. destruct (writer_opens w mp4v _ _ _); [discriminate|].
    simpl in *. destruct (writer_opens w XVID _ _ _); [discriminate|reflexivity].
  - intros [H1 H2]. simpl. rewrite H1. simpl. rewrite H2. reflexivity.
  - intros video_path request. rewrite process_video_eq.
    unfold run_codec, opening_codec. simpl.
    destruct (model_loads w); [|reflexivity].
    destruct (writer_opens w mp4v _ _ _); [reflexivity|].
    simpl. destruct (writer_opens w XVID _ _ _); reflexivity.
Qed.

(** ** C8: frame-rate normalisation *)

(** C8.  A frame rate of zero (of either sign) or [None] becomes exactly
    30.0, a positive frame rate is kept as reported, and throughout a run
    every request to open the writer carries the normalised rate. *)
Theorem frame_rate_normalised :
  (forall s, valid_fps (Some (S754_zero s)) = float_30) /\
  valid_fps None = float_30 /\
  (forall f, SFltb float_zero f = true -> valid_fps (Some f) = f) /\
  (forall w video_path output_path request fs0,
     let fps := valid_fps (cap_fps (VideoCapture w video_path)) in
     let tr := trace (snd (process_video w video_path output_path request
                             (init_state fs0))) in
     Forall (eq fps) (writer_fps tr) /\
     (model_loads w = true -> hd_error (writer_fps tr) = Some fps)).
Proof.
  split; [intros []; reflexivity|].
  split; [reflexivity|].
  split; [|intros w video_path output_path request fs0; cbv zeta; split].
  - intros f H. destruct f as [s|s| |s m e]; try destruct s;
      try discriminate H; reflexivity.
  - rewrite process_video_eq. destruct (model_loads w); [|constructor].
    assert (Ho : Forall (eq (valid_fps (cap_fps (VideoCapture w video_path))))
                   (writer_fps (trace (opened_state w video_path output_path
                                         (init_state fs0))))).
    { rewrite opened_state_eq. simpl. rewrite writer_fps_opening_events.
      destruct (writer_opens w mp4v _ _ _); repeat constructor. }
    destruct (run_codec w video_path); simpl.
    + now rewrite final_state_writer_fps.
    + rewrite writer_fps_app. simpl. now rewrite app_nil_r.
  - intros Hm. rewrite process_video_eq, Hm.
    assert (Ho : hd_error (writer_fps (trace (opened_state w video_path output_path
                                                (init_state fs0))))
                 = Some (valid_fps (cap_fps (VideoCapture w video_path)))).
    { rewrite opened_state_eq. simpl. rewrite writer_fps_opening_events.
      destruct (writer_opens w mp4v _ _ _); reflexivity. }
    destruct (run_codec w video_path); simpl.
    + now rewrite final_state_writer_fps.
    + rewrite writer_fps_app. simpl. now rewrite app_nil_r.
Qed.

(** ** C10: the value returned *)

(** C10.  Whenever [process_video] returns, it returns the output path it
    was given; and it does return as soon as the model loads and one of the
    codecs opens, whatever the frames, the clock and the tool do. *)
Theorem returns_given_output_path
    (w : world) (video_path output_path : string) (request : option request)
    (st : state) :
  (forall p, fst (process_video w video_path output_path request st) = Ok p ->
             p = output_path) /\
  (model_loads w = true -> run_codec w video_path <> None ->
   fst (process_video w video_path output_path request st) = Ok output_path).
Proof.
  rewrite process_video_eq. split.
  - intros p. destruct (model_loads w); [|discriminate].
    destruct (run_codec w video_path); [|discriminate].
    simpl. congruence.
  - intros -> Hc. destruct (run_codec w video_path); [reflexivity|congruence].
Qed.

(** ** C5: release of the handles *)

(** C5.  At every exit of a run no handle is left open.  When the run
    returns, whatever way the loop ended, both the capture and the writer
    have been released; when it raises the writer-open error the capture has
    been released and no writer ever opened; the only other exit is the
    failure to load the model, before anything is acquired. *)
Theorem handles_released_on_every_exit
    (w : world) (video_path output_path : string) (request : option request)
    (fs0 : gmap string file) :
  let r := process_video w video_path output_path request (init_state fs0) in
  is_open (source (snd r)) = false /\
  is_open (sink (snd r)) = false /\
  match fst r with
  | Ok _ =>
      source (snd r) = Released /\ sink (snd r) = Released /\
      In EvCapRelease (trace (snd r)) /\ In EvOutRelease (trace (snd r))
  | Raised (WriterOpenFailed _) =>
      source (snd r) = Released /\ sink (snd r) = NotOpen /\
      In EvCapRelease (trace (snd r)) /\ opened_writers (trace (snd r)) = []
  | Raised e =>
      e = ModelLoadError /\ snd r = init_state fs0
  end.
Proof.
  cbv zeta. rewrite process_video_eq.
  destruct (model_loads w); [|repeat split].
  destruct (run_codec w video_path) as [c|] eqn:Hc; cbn [fst snd].
  - destruct (final_state_handles w video_path output_path (init_state fs0))
      as [Hs Hk].
    destruct (looped_state_releases w video_path output_path (init_state fs0))
      as [Hr1 Hr2].
    rewrite Hs, Hk. repeat split; auto using final_state_In.
  - rewrite opened_state_eq, Hc. simpl. repeat split; [in_trace|].
    unfold run_codec, opening_codec in Hc. unfold opening_events.
    destruct (writer_opens w mp4v _ _ _); [discriminate|].
    destruct (writer_opens w XVID _ _ _); [discriminate|reflexivity].
Qed.

(** ** Runs whose first frames go through *)

Section Prefix.

Variable w : world.
Variables video_path output_path : string.
Variable fs0 : gmap string file.
Variables done rest : list frame_spec.
Variable c : codec.

Local Abbreviation cap := (VideoCapture w video_path).
Local Abbreviation at_prefix :=
  (prefix_state w video_path output_path fs0 done).

Hypothesis cap_is_open : cap_opened cap = true.
Hypothesis writer_is_open : run_codec w video_path = Some c.
Hypothesis frames_split : cap_frames cap = (done ++ rest)%list.
Hypothesis done_ok : Forall (fun f => frame_exn f = None) done.
Hypothesis done_in_time :
  forall i, 1 <= i <= length done -> (clock w i - clock w 0 <= TIMEOUT_LIMIT)%Q.

Lemma entry_state_eq :
  entry_state w video_path output_path (init_state fs0)
  = {| fs := <[output_path := RawVideo c []]> fs0;
       ticks := 1; source := Open; sink := Open; frame_count := 0;
       trace := opening_events w (valid_fps (cap_fps cap)) (cap_width cap)
                  (cap_height cap) ++ [EvClock (clock w 0)] |}.
Proof.
  unfold entry_state, loop_entry, after_check. rewrite opened_state_eq.
  rewrite writer_is_open, cap_is_open. reflexivity.
Qed.

Lemma loop_result_prefix :
  loop_result w video_path output_path (init_state fs0)
  = frame_loop w output_path (clock w 0) rest at_prefix.
Proof.
  unfold loop_result, prefix_state. rewrite frames_split.
  apply frame_loop_prefix; [now rewrite entry_state_eq|exact done_ok|].
  intros i Hi. rewrite entry_state_eq. simpl. apply done_in_time. lia.
Qed.

Lemma prefix_state_source : source at_prefix = Open.
Proof.
  unfold prefix_state. now rewrite after_frames_source, entry_state_eq.
Qed.

Lemma prefix_state_ticks : ticks at_prefix = S (length done).
Proof.
  unfold prefix_state. now rewrite after_frames_ticks, entry_state_eq.
Qed.

Lemma prefix_state_frame_count : frame_count at_prefix = length done.
Proof.
  unfold prefix_state. now rewrite after_frames_frame_count, entry_state_eq.
Qed.

Lemma prefix_state_reads :
  reads (trace at_prefix) = map (fun f => Some (frame_id f)) done.
Proof.
  unfold prefix_state. rewrite after_frames_reads, entry_state_eq. simpl.
  rewrite reads_app. unfold opening_events.
  destruct (writer_opens w mp4v _ _ _); reflexivity.
Qed.

Lemma prefix_state_output :
  fs at_prefix !! output_path = Some (RawVideo c (map written_image done)).
Proof.
  unfold prefix_state.
  rewrite (after_frames_output w output_path done _ c []); [reflexivity|].
  rewrite entry_state_eq. simpl. apply lookup_insert_eq.
Qed.



(** Within budget at the next check, and the next frame provokes an
    exception: the loop is left by the exception, which the handler
    prints. *)
Lemma looped_state_raises bad rest' e :
  rest = bad :: rest' ->
  frame_exn bad = Some e ->
  (clock w (S (length done)) - clock w 0 <= TIMEOUT_LIMIT)%Q ->
  looped_state w video_path output_path (init_state fs0)
  = drained (push (EvPrint (MsgProcessingError (length done) e))
               (after_read w bad at_prefix)).
Proof.
  intros Hrest Hbad Hin. rewrite looped_state_eq, loop_result_prefix, Hrest.
  rewrite (frame_loop_raises _ _ _ _ _ _ e); [| | |exact Hbad].
  - simpl. now rewrite prefix_state_frame_count.
  - now rewrite prefix_state_source.
  - now rewrite prefix_state_ticks.
Qed.

(** Within budget at the next check, and nothing left to read. *)
Lemma looped_state_end_of_stream :
  rest = [] ->
  (clock w (S (length done)) - clock w 0 <= TIMEOUT_LIMIT)%Q ->
  looped_state w video_path output_path (init_state fs0)
  = drained (push (EvPrint MsgEndOfStream)
               (push (EvRead None) (after_check w at_prefix))).
Proof.
  intros Hrest Hin. rewrite looped_state_eq, loop_result_prefix, Hrest.
  rewrite frame_loop_end_of_stream; [reflexivity| |].
  - now rewrite prefix_state_source.
  - now rewrite prefix_state_ticks.
Qed.

End Prefix.

(** ** C6: the time budget *)



(** ** C1: an exception inside the loop *)

(** C1, counterexample.  With the tracker raising on the second of three
    frames, the run returns normally but the third frame is never read: one
    frame is counted and one frame is in the output. *)
Lemma bad_frame_ends_the_loop_counterexample :
  let r := process_video bad_frame_world "in.mp4" "out.mp4" None (init_state ∅) in
  fst r = Ok "out.mp4" /\
  reads (trace (snd r)) = [Some 0; Some 1] /\
  frame_count (snd r) = 1 /\
  fs (snd r) !! "out.mp4" = Some (RawVideo mp4v [Skeleton 0]) /\
  ~ later_frames_processed bad_frame_world "in.mp4" "out.mp4" ∅.
Proof.
  cbv zeta. repeat split; try (vm_compute; reflexivity).
  intros [Hread _]. specialize (Hread (good_frame 2)).
  assert (Hin : In (Some 2)
                  (reads (trace (snd (process_video bad_frame_world "in.mp4"
                                        "out.mp4" None (init_state ∅)))))).
  { apply Hread. simpl. auto. }
  vm_compute in Hin. intuition discriminate.
Qed.

(** C1, amended.  An exception raised while a frame is annotated or written
    is caught by the one handler around the whole loop (line 129), not per
    frame.  In a run whose frames [done] went through and whose next frame
    [bad] provokes exception [e]: [bad] is read but neither written nor
    counted, no frame after it is read, the handler prints [e] with the
    count reached, both handles are released, the container holds the frames
    of [done], and the run returns the output path: the exception does not
    reach the caller. *)
Theorem bad_frame_ends_the_loop
    (w : world) (video_path output_path : string) (request : option request)
    (fs0 : gmap string file) (done rest : list frame_spec) (bad : frame_spec)
    (e : exn) (c : codec) :
  model_loads w = true ->
  cap_opened (VideoCapture w video_path) = true ->
  run_codec w video_path = Some c ->
  cap_frames (VideoCapture w video_path) = (done ++ bad :: rest)%list ->
  Forall (fun f => frame_exn f = None) done ->
  frame_exn bad = Some e ->
  (forall i, 1 <= i <= S (length done) ->
             (clock w i - clock w 0 <= TIMEOUT_LIMIT)%Q) ->
  let r := process_video w video_path output_path request (init_state fs0) in
  fst r = Ok output_path /\
  reads (trace (snd r))
  = (map (fun f => Some (frame_id f)) done ++ [Some (frame_id bad)])%list /\
  frame_count (snd r) = length done /\
  In (EvPrint (MsgProcessingError (length done) e)) (trace (snd r)) /\
  source (snd r) = Released /\ sink (snd r) = Released /\
  fs (looped_state w video_path output_path (init_state fs0)) !! output_path
  = Some (RawVideo c (map written_image done)).
Proof.
  intros Hm Ho Hc Hfr Hok Hbad Hin. cbv zeta.
  rewrite process_video_eq, Hm, Hc. cbn [fst snd].
  assert (Hin' : forall i, 1 <= i <= length done ->
                           (clock w i - clock w 0 <= TIMEOUT_LIMIT)%Q)
    by (intros i Hi; apply Hin; lia).
  assert (Hlast : (clock w (S (length done)) - clock w 0 <= TIMEOUT_LIMIT)%Q)
    by (apply Hin; lia).
  pose proof (looped_state_raises w video_path output_path fs0 done
                (bad :: rest) c Ho Hc Hfr Hok Hin' bad rest e eq_refl Hbad Hlast)
    as Hl.
  destruct (final_state_counters w video_path output_path (init_state fs0))
    as [Ht Hn].
  destruct (final_state_handles w video_path output_path (init_state fs0))
    as [Hs Hk].
  split; [reflexivity|].
  split.
  { rewrite final_state_reads, Hl. simpl. rewrite !reads_app. simpl.
    rewrite !app_nil_r. f_equal. eapply prefix_state_reads; eassumption. }
  split.
  { rewrite Hn, Hl. simpl. eapply prefix_state_frame_count; eassumption. }
  split.
  { apply final_state_In. rewrite Hl. simpl. in_trace. }
  split; [exact Hs|]. split; [exact Hk|].
  rewrite Hl. simpl. eapply prefix_state_output; eassumption.
Qed.

Lemma bad_frame_ends_the_loop_witness :
  let r := process_video bad_frame_world "in.mp4" "out.mp4" None (init_state ∅) in
  fst r = Ok "out.mp4" /\
  reads (trace (snd r)) = [Some 0; Some 1] /\
  frame_count (snd r) = 1.
Proof.
  destruct (bad_frame_ends_the_loop bad_frame_world "in.mp4" "out.mp4" None ∅
              [good_frame 0] [good_frame 2] (tracker_fails_on 1)
              (InferenceError 1) mp4v)
    as (H1 & H2 & H3 & _).
  - reflexivity.
  - reflexivity.
  - reflexivity.
  - reflexivity.
  - repeat constructor.
  - reflexivity.
  - intros i Hi. unfold Qle. simpl. lia.
  - repeat split; assumption.
Defined.

(** ** C2: a source that cannot be opened or decoded *)





(** ** C7: the request object *)

(** C7, counterexample.  With a request that reports the disconnection from
    the start, both frames of the source are still read, annotated and
    written. *)
Lemma request_ignored_counterexample :
  let w := sample_world (sample_capture [good_frame 0; good_frame 1])
             (fun _ => 0%Q) in
  let r := process_video w "in.mp4" "out.mp4" (Some gone_request)
             (init_state ∅) in
  reads (trace (snd r)) = [Some 0; Some 1; None] /\
  frame_count (snd r) = 2 /\
  ~ stops_on_disconnect w "in.mp4" "out.mp4" gone_request ∅.
Proof.
  cbv zeta. repeat split; try (vm_compute; reflexivity).
  intros H. specialize (H 0 eq_refl). vm_compute in H. lia.
Qed.

(** C7, amended.  [process_video] accepts the optional request object and
    never consults it: a run is the same whatever the request object is or
    answers.  A disconnection therefore does not stop the loop: in a run
    whose frames all go through within budget every frame is read, written
    and counted, and the loop ends on the read that finds the stream
    exhausted, with any request object. *)
Theorem request_is_never_consulted
    (w : world) (video_path output_path : string) (request : option request)
    (fs0 : gmap string file) (c : codec) :
  (forall request',
     process_video w video_path output_path request
     = process_video w video_path output_path request') /\
  (model_loads w = true ->
   cap_opened (VideoCapture w video_path) = true ->
   run_codec w video_path = Some c ->
   Forall (fun f => frame_exn f = None) (cap_frames (VideoCapture w video_path)) ->
   (forall i, 1 <= i <= S (length (cap_frames (VideoCapture w video_path))) ->
              (clock w i - clock w 0 <= TIMEOUT_LIMIT)%Q) ->
   let r := process_video w video_path output_path request (init_state fs0) in
   reads (trace (snd r))
   = (map (fun f => Some (frame_id f)) (cap_frames (VideoCapture w video_path))
        ++ [None])%list /\
   frame_count (snd r) = length (cap_frames (VideoCapture w video_path)) /\
   In (EvPrint MsgEndOfStream) (trace (snd r))).
Proof.
  split; [reflexivity|].
  intros Hm Ho Hc Hok Hin. cbv zeta.
  rewrite process_video_eq, Hm, Hc. cbn [fst snd].
  set (frames := cap_frames (VideoCapture w video_path)) in *.
  assert (Hfr : frames = (frames ++ [])%list) by now rewrite app_nil_r.
  assert (Hin' : forall i, 1 <= i <= length frames ->
                           (clock w i - clock w 0 <= TIMEOUT_LIMIT)%Q)
    by (intros i Hi; apply Hin; lia).
  assert (Hlast : (clock w (S (length frames)) - clock w 0 <= TIMEOUT_LIMIT)%Q)
    by (apply Hin; lia).
  pose proof (looped_state_end_of_stream w video_path output_path fs0 frames
                [] c Ho Hc Hfr Hok Hin' eq_refl Hlast) as Hl.
  destruct (final_state_counters w video_path output_path (init_state fs0))
    as [_ Hn].
  split.
  { rewrite final_state_reads, Hl. simpl. rewrite !reads_app. simpl.
    rewrite !app_nil_r. f_equal. eapply prefix_state_reads; eassumption. }
  split.
  { rewrite Hn, Hl. simpl. eapply prefix_state_frame_count; eassumption. }
  apply final_state_In. rewrite Hl. simpl. in_trace.
Qed.

Lemma request_is_never_consulted_witness :
  let w := sample_world (sample_capture [good_frame 0; good_frame 1])
             (fun _ => 0%Q) in
  let r := process_video w "in.mp4" "out.mp4" (Some gone_request)
             (init_state ∅) in
  reads (trace (snd r)) = [Some 0; Some 1; None] /\ frame_count (snd r) = 2.
Proof.
  destruct (request_is_never_consulted
              (sample_world (sample_capture [good_frame 0; good_frame 1])
                 (fun _ => 0%Q))
              "in.mp4" "out.mp4" (Some gone_request) ∅ mp4v) as [_ H].
  destruct H as (H1 & H2 & _).
  - reflexivity.
  - reflexivity.
  - reflexivity.
  - repeat constructor.
  - intros i Hi. unfold Qle. simpl. lia.
  - split; assumption.
Defined.

(** ** C4: the conversion step at an output path without ".mp4" *)


(** The same machine and source with an output path that ends in ".mp4". *)
Example transcode_with_mp4_suffix :
  let r := process_video (ffmpeg_world ToolOk) "videos/clip.avi"
             "results/processed_clip.mp4" None (init_state ∅) in
  fst r = Ok "results/processed_clip.mp4" /\
  fs (snd r) !! "results/processed_clip.mp4"
  = Some (H264 (RawVideo mp4v [Skeleton 0])) /\
  fs (snd r) !! "results/processed_clip_temp.mp4" = None.
Proof. cbv zeta. repeat split; vm_compute; reflexivity. Qed.

(** ** C9: the temporary path *)



(** *** Instances of the other claims *)

Lemma sink_open_tries_codecs_in_order_witness :
  let r := open_writer xvid_world "out.mp4" float_30 640 480 (init_state ∅) in
  fst r = Ok true /\
  trace (snd r) = [EvWriter mp4v float_30 640 480 false;
                   EvWriter XVID float_30 640 480 true] /\
  fs (snd r) = <["out.mp4" := RawVideo XVID []]> ∅.
Proof.
  destruct (sink_open_tries_codecs_in_order xvid_world "out.mp4" float_30
              640 480 (init_state ∅)) as (H1 & H2 & H3 & _).
  repeat split; assumption.
Defined.

Lemma frame_rate_normalised_witness :
  valid_fps (Some float_25) = float_25 /\
  valid_fps (Some float_zero) = float_30 /\
  hd_error (writer_fps (trace (snd (process_video xvid_world "in.mp4" "out.mp4"
                                      None (init_state ∅)))))
  = Some float_30.
Proof.
  destruct frame_rate_normalised as (H0 & _ & Hpos & Hrun).
  split; [apply Hpos; reflexivity|].
  split; [apply H0|].
  destruct (Hrun xvid_world "in.mp4" "out.mp4" None ∅) as [_ H].
  exact (H eq_refl).
Defined.

Lemma returns_given_output_path_witness :
  fst (process_video xvid_world "in.mp4" "out.mp4" None (init_state ∅))
  = Ok "out.mp4".
Proof.
  destruct (returns_given_output_path xvid_world "in.mp4" "out.mp4" None
              (init_state ∅)) as [_ H].
  apply H; [reflexivity|discriminate].
Defined.

(** * Further properties of the code *)

(** ** The temporary path, for every output path (model.py, line 145) *)

Lemma string_length_app (a b : string) :
  String.length (a ++ b) = String.length a + String.length b.
Proof. induction a as [|c a IH]; simpl; [reflexivity|now rewrite IH]. Qed.

Lemma startswith_split (p s : string) :
  PyStr.startswith p s = true -> exists b, s = (p ++ b)%string.
Proof.
  revert s. induction p as [|x p IH]; intros s H.
  - exists s. reflexivity.
  - destruct s as [|y s]; [discriminate H|]. simpl in H.
    destruct (Ascii.eqb x y) eqn:E; [|discriminate H].
    apply Ascii.eqb_eq in E. subst y.
    destruct (IH s H) as [b ->]. exists b. reflexivity.
Qed.

Lemma startswith_app_l (p a x : string) :
  PyStr.startswith p a = true -> PyStr.startswith p (a ++ x) = true.
Proof.
  revert a. induction p as [|c p IH]; intros a H; [reflexivity|].
  destruct a as [|y a]; [discriminate H|]. simpl in *.
  destruct (Ascii.eqb c y); [now apply IH|discriminate H].
Qed.

(** The first occurrence of ".mp4" splits a string that contains it. *)
Lemma first_mp4 (s : string) :
  PyStr.contains ".mp4" s = true ->
  exists a b, s = (a ++ ".mp4" ++ b)%string /\ PyStr.contains ".mp4" a = false.
Proof.
  induction s as [|c s IH]; intros H; [discriminate H|].
  destruct (PyStr.startswith ".mp4" (String c s)) eqn:Hs.
  - destruct (startswith_split _ _ Hs) as [b Hb].
    exists EmptyString, b. split; [exact Hb|reflexivity].
  - assert (Ht : PyStr.contains ".mp4" s = true).
    { change (PyStr.contains ".mp4" (String c s))
        with (PyStr.startswith ".mp4" (String c s) || PyStr.contains ".mp4" s) in H.
      rewrite Hs in H. exact H. }
    destruct (IH Ht) as (a & b & -> & Ha).
    exists (String c a), b. split; [reflexivity|].
    change (PyStr.contains ".mp4" (String c a))
      with (PyStr.startswith ".mp4" (String c a) || PyStr.contains ".mp4" a).
    rewrite Ha, orb_false_r.
    destruct (PyStr.startswith ".mp4" (String c a)) eqn:Hp; [|reflexivity].
    apply (startswith_app_l _ _ (".mp4" ++ b)) in Hp.
    change (String c a ++ ".mp4" ++ b)%string
      with (String c (a ++ ".mp4" ++ b)%string) in Hp.
    congruence.
Qed.

(** The replacement never shortens a path. *)
Lemma temp_path_of_length (n : nat) (s : string) :
  String.length s <= n -> String.length s <= String.length (temp_path_of s).
Proof.
  revert s. induction n as [|n IH]; intros s Hn.
  - destruct s; [reflexivity|simpl in Hn; lia].
  - destruct (PyStr.contains ".mp4" s) eqn:Hc.
    + destruct (first_mp4 s Hc) as (a & b & -> & Ha).
      rewrite (temp_path_of_app a b Ha).
      rewrite !string_length_app in *. simpl in *.
      assert (String.length b <= String.length (temp_path_of b))
        by (apply IH; lia).
      lia.
    + unfold temp_path_of. rewrite replace_absent_id by exact Hc. reflexivity.
Qed.

(** X1.  The temporary path is the output path itself exactly when the
    output path does not contain ".mp4"; otherwise it is longer, by five
    characters or more. *)
Theorem temp_path_same_iff_no_mp4 (output_path : string) :
  (temp_path_of output_path = output_path
   <-> PyStr.contains ".mp4" output_path = false) /\
  (PyStr.contains ".mp4" output_path = true ->
   String.length output_path + 5 <= String.length (temp_path_of output_path)).
Proof.
  assert (Hgrow : PyStr.contains ".mp4" output_path = true ->
                  String.length output_path + 5
                  <= String.length (temp_path_of output_path)).
  { intros Hc. destruct (first_mp4 _ Hc) as (a & b & -> & Ha).
    rewrite (temp_path_of_app a b Ha). rewrite !string_length_app. simpl.
    pose proof (temp_path_of_length _ b (le_n _)). lia. }
  split; [split|exact Hgrow].
  - intros Hsame. destruct (PyStr.contains ".mp4" output_path) eqn:Hc;
      [|reflexivity].
    specialize (Hgrow eq_refl). rewrite Hsame in Hgrow. lia.
  - intros Hc. unfold temp_path_of. now apply replace_absent_id.
Qed.

Lemma temp_path_same_iff_no_mp4_witness :
  String.length "a.mp4.bak" + 5 <= String.length (temp_path_of "a.mp4.bak").
Proof.
  destruct (temp_path_same_iff_no_mp4 "a.mp4.bak") as [_ H].
  apply H. reflexivity.
Defined.

Lemma Qgt_bool_true_inv (a b : Q) : Qgt_bool a b = true -> (b < a)%Q.
Proof.
  unfold Qgt_bool. intros H. apply Qnot_le_lt. intros Hle.
  apply Qle_bool_iff in Hle. rewrite Hle in H. discriminate H.
Qed.

Lemma Qgt_bool_false_inv (a b : Q) : Qgt_bool a b = false -> (a <= b)%Q.
Proof.
  unfold Qgt_bool. intros H. apply Qle_bool_iff.
  destruct (Qle_bool a b); [reflexivity|discriminate H].
Qed.

(** Whatever the clock, the frames and the writer do, the loop leaves in the
    container what was there, followed by the images of the first [k] frames
    of the source in order, where [k] is the increase of the counter; it
    touches no other path. *)
Lemma frame_loop_invariant w output_path start_time frames :
  forall st c l,
    fs st !! output_path = Some (RawVideo c l) ->
    let r := frame_loop w output_path start_time frames st in
    exists k,
      k <= length frames /\
      frame_count (snd r) = frame_count st + k /\
      fs (snd r) !! output_path
      = Some (RawVideo c (l ++ map written_image (firstn k frames))) /\
      Forall (fun f => frame_exn f = None) (firstn k frames) /\
      (forall p, p <> output_path -> fs (snd r) !! p = fs st !! p).
Proof.
  induction frames as [|f rest IH]; intros st c l Hfile; cbv zeta.
  - exists 0. destruct (is_open (source st)) eqn:Ho.
    + destruct (Qgt_bool (clock w (ticks st) - start_time) TIMEOUT_LIMIT) eqn:Hq.
      * rewrite frame_loop_timeout by (auto using Qgt_bool_true_inv).
        simpl. rewrite app_nil_r. repeat split; auto with arith.
      * rewrite frame_loop_end_of_stream by (auto using Qgt_bool_false_inv).
        simpl. rewrite app_nil_r. repeat split; auto with arith.
    + rewrite frame_loop_not_open by exact Ho.
      simpl. rewrite app_nil_r. repeat split; auto with arith.
  - destruct (is_open (source st)) eqn:Ho.
    + destruct (Qgt_bool (clock w (ticks st) - start_time) TIMEOUT_LIMIT) eqn:Hq.
      * exists 0. rewrite frame_loop_timeout by (auto using Qgt_bool_true_inv).
        simpl. rewrite app_nil_r. repeat split; auto with arith.
      * apply Qgt_bool_false_inv in Hq.
        destruct (frame_exn f) as [e|] eqn:Hf.
        -- exists 0. rewrite (frame_loop_raises _ _ _ _ _ _ e) by assumption.
           simpl. rewrite app_nil_r. repeat split; auto with arith.
        -- rewrite frame_loop_frame by assumption.
           destruct (IH (after_frame w output_path f st) c
                       (l ++ [written_image f])%list) as (k & Hk & Hc & Ho' & Hok & Hp).
           { simpl. rewrite lookup_alter_eq, Hfile. reflexivity. }
           exists (S k). simpl firstn. simpl map.
           split; [simpl; lia|]. split; [rewrite Hc; simpl; lia|].
           split; [rewrite Ho', <- app_assoc; reflexivity|].
           split; [constructor; assumption|].
           intros p Hne. rewrite Hp by exact Hne. simpl.
           now rewrite lookup_alter_ne.
    + exists 0. rewrite frame_loop_not_open by exact Ho.
      simpl. rewrite app_nil_r. repeat split; auto with arith.
Qed.

Lemma transcode_other_paths w output_path st p :
  p <> output_path -> p <> temp_path_of output_path ->
  fs (snd (transcode w output_path st)) !! p = fs st !! p.
Proof.
  intros Hp Ht. unfold_transcode.
  destruct (which_ffmpeg w); [|reflexivity].
  remember (temp_path_of output_path) as temp eqn:Htemp.
  destruct (fs st !! output_path) as [f|] eqn:Hf.
  - destruct (String.eqb temp output_path) eqn:E.
    + apply String.eqb_eq in E. rewrite E. clear Htemp E Ht.
      destruct (ffmpeg w) as [|code debris|]; [|destruct debris|];
        fs_eval; rewrite ?String.eqb_refl; fs_eval; reflexivity.
    + assert (temp <> output_path) by now apply String.eqb_neq.
      destruct (ffmpeg w) as [|code debris|]; [|destruct debris|];
        fs_eval; rewrite ?E; fs_eval; reflexivity.
  - fs_eval. rewrite Hf. fs_eval.
    destruct (fs st !! temp) as [g|] eqn:Hg; fs_eval; [|reflexivity].
    rewrite Hg. fs_eval. reflexivity.
Qed.

(** ** What a run leaves in the file system (model.py, lines 73-179) *)

Lemma looped_state_invariant w video_path output_path fs0 c :
  run_codec w video_path = Some c ->
  let s := looped_state w video_path output_path (init_state fs0) in
  let frames := cap_frames (VideoCapture w video_path) in
  frame_count s <= length frames /\
  Forall (fun f => frame_exn f = None) (firstn (frame_count s) frames) /\
  fs s !! output_path
  = Some (RawVideo c (map written_image (firstn (frame_count s) frames))) /\
  (forall p, p <> output_path -> fs s !! p = fs0 !! p).
Proof.
  intros Hc. cbv zeta. rewrite looped_state_eq. unfold loop_result.
  assert (Hentry : fs (entry_state w video_path output_path (init_state fs0))
                   = <[output_path := RawVideo c []]> fs0 /\
                   frame_count (entry_state w video_path output_path
                                  (init_state fs0)) = 0).
  { unfold entry_state. rewrite opened_state_eq, Hc. split; reflexivity. }
  destruct Hentry as [Hfs Hcount].
  destruct (frame_loop_invariant w output_path (clock w (ticks (init_state fs0)))
              (cap_frames (VideoCapture w video_path))
              (entry_state w video_path output_path (init_state fs0)) c [])
    as (k & Hk & Hn & Hfile & Hok & Hother).
  { rewrite Hfs. apply lookup_insert_eq. }
  rewrite Hcount in Hn. simpl in Hn, Hfile.
  assert (Hrest : forall p, p <> output_path ->
            fs (snd (frame_loop w output_path (clock w (ticks (init_state fs0)))
                       (cap_frames (VideoCapture w video_path))
                       (entry_state w video_path output_path (init_state fs0))))
               !! p = fs0 !! p).
  { intros p Hp. rewrite (Hother p Hp), Hfs. now rewrite lookup_insert_ne. }
  destruct (frame_loop _ _ _ _ _) as [[[]|e] s]; simpl in *;
    rewrite Hn; repeat split; assumption.
Qed.

(** X2.  In every run that gets a writer, whatever the clock, the model
    and the writer do afterwards: the frame counter never exceeds the number
    of frames of the source; when the handles are released the container
    holds exactly as many frames as were counted, namely the images of the
    first frames of the source, in source order, none of which provoked an
    exception; without ffmpeg this container is the final output, and with a
    temporary path of its own the final output still carries those
    frames. *)
Theorem output_holds_counted_frames_in_order
    (w : world) (video_path output_path : string) (request : option request)
    (fs0 : gmap string file) (c : codec) :
  model_loads w = true ->
  run_codec w video_path = Some c ->
  let r := process_video w video_path output_path request (init_state fs0) in
  let frames := cap_frames (VideoCapture w video_path) in
  let written := map written_image (firstn (frame_count (snd r)) frames) in
  frame_count (snd r) <= length frames /\
  Forall (fun f => frame_exn f = None) (firstn (frame_count (snd r)) frames) /\
  fs (looped_state w video_path output_path (init_state fs0)) !! output_path
  = Some (RawVideo c written) /\
  (which_ffmpeg w = false ->
   fs (snd r) !! output_path = Some (RawVideo c written)) /\
  (temp_path_of output_path <> output_path ->
   exists f, fs (snd r) !! output_path = Some f /\ frames_of f = written).
Proof.
  intros Hm Hc. cbv zeta. rewrite process_video_eq, Hm, Hc. cbn [fst snd].
  destruct (looped_state_invariant w video_path output_path fs0 c Hc)
    as (Hle & Hok & Hfile & _).
  destruct (final_state_counters w video_path output_path (init_state fs0))
    as [_ Hn].
  rewrite Hn. split; [exact Hle|]. split; [exact Hok|]. split; [exact Hfile|].
  split.
  - intros Hw. unfold final_state, transcode. rewrite Hw. exact Hfile.
  - intros Hne.
    destruct (final_state_output w video_path output_path (init_state fs0) _
                (or_intror Hne) Hfile) as (f & Hf & Hfr).
    exists f. split; [exact Hf|exact Hfr].
Qed.

Lemma output_holds_counted_frames_in_order_witness :
  let r := process_video bad_frame_world "in.mp4" "out.mp4" None (init_state ∅) in
  frame_count (snd r) <= 3 /\
  fs (snd r) !! "out.mp4" = Some (RawVideo mp4v [Skeleton 0]).
Proof.
  destruct (output_holds_counted_frames_in_order bad_frame_world "in.mp4"
              "out.mp4" None ∅ mp4v eq_refl eq_refl) as (H1 & _ & _ & H4 & _).
  split; [exact H1|exact (H4 eq_refl)].
Defined.

(** X3.  A run changes no path of the file system other than the output
    path and the temporary path derived from it, on any of its exits: the
    input video, in particular, is left as it is unless it is one of the
    two. *)
Theorem run_touches_only_output_and_temp
    (w : world) (video_path output_path : string) (request : option request)
    (fs0 : gmap string file) (p : string) :
  p <> output_path ->
  p <> temp_path_of output_path ->
  fs (snd (process_video w video_path output_path request (init_state fs0))) !! p
  = fs0 !! p.
Proof.
  intros Hp Ht. rewrite process_video_eq.
  destruct (model_loads w); [|reflexivity].
  destruct (run_codec w video_path) as [c|] eqn:Hc; cbn [snd].
  - unfold final_state. rewrite transcode_other_paths by assumption.
    unfold finished_state. cbn [fs push].
    destruct (looped_state_invariant w video_path output_path fs0 c Hc)
      as (_ & _ & _ & Hother).
    now apply Hother.
  - rewrite opened_state_eq, Hc. reflexivity.
Qed.

Lemma run_touches_only_output_and_temp_witness :
  fs (snd (process_video (ffmpeg_world ToolOk) "videos/clip.avi" avi_output None
             (init_state {["videos/clip.avi" := Blob 7]}))) !! "videos/clip.avi"
  = Some (Blob 7).
Proof.
  rewrite (run_touches_only_output_and_temp (ffmpeg_world ToolOk)
             "videos/clip.avi" avi_output None _ "videos/clip.avi").
  - reflexivity.
  - discriminate.
  - discriminate.
Defined.

(** ** The model cache (model.py, lines 5-26) *)

Lemma calls_filled m y n k :
  ModelCache.calls m k {| ModelCache.model := Some y; ModelCache.constructions := n |}
  = (repeat (inr y) k,
     {| ModelCache.model := Some y; ModelCache.constructions := n |}).
Proof.
  induction k as [|k IH]; [reflexivity|].
  simpl. rewrite IH. reflexivity.
Qed.

(** X4.  The model is loaded once: after a call of [get_model] that
    returns, every later call returns the same object and leaves the cache as
    it is; no further model is constructed. *)
Theorem model_is_loaded_once
    (m : ModelCache.machine) (c : ModelCache.cache) (y : ModelCache.yolo)
    (k : nat) :
  fst (ModelCache.get_model m c) = inr y ->
  ModelCache.calls m k (snd (ModelCache.get_model m c))
  = (repeat (inr y) k, snd (ModelCache.get_model m c)) /\
  ModelCache.constructions (snd (ModelCache.get_model m c))
  <= S (ModelCache.constructions c).
Proof.
  unfold ModelCache.get_model. destruct c as [[y0|] n]; simpl.
  - intros H. injection H as ->. split; [apply calls_filled|lia].
  - destruct (ModelCache.YOLO_succeeds m n); [|discriminate].
    destruct (ModelCache.to_succeeds m n); [|discriminate].
    simpl. intros H. injection H as <-. split; [apply calls_filled|lia].
Qed.

Lemma model_is_loaded_once_witness :
  ModelCache.calls cuda_machine 3
    (snd (ModelCache.get_model cuda_machine ModelCache.empty))
  = (repeat (inr {| ModelCache.built_by := 0;
                    ModelCache.moved_to := Some ModelCache.cuda |}) 3,
     snd (ModelCache.get_model cuda_machine ModelCache.empty)).
Proof.
  apply (model_is_loaded_once cuda_machine ModelCache.empty). reflexivity.
Defined.

(** X5.  When the model is constructed but the move to the device raises
    (line 24), the global already holds the model (line 23): the call fails,
    and every later call returns that model, which was moved to no device;
    the move is never tried again. *)
Theorem failed_move_leaves_unmoved_model
    (m : ModelCache.machine) (c : ModelCache.cache) (k : nat) :
  ModelCache.model c = None ->
  ModelCache.YOLO_succeeds m (ModelCache.constructions c) = true ->
  ModelCache.to_succeeds m (ModelCache.constructions c) = false ->
  let n := ModelCache.constructions c in
  let unmoved := {| ModelCache.built_by := n; ModelCache.moved_to := None |} in
  fst (ModelCache.get_model m c) = inl (ModelCache.MoveError n) /\
  ModelCache.calls m k (snd (ModelCache.get_model m c))
  = (repeat (inr unmoved) k, snd (ModelCache.get_model m c)).
Proof.
  destruct c as [y n]. simpl. intros -> Hy Ht.
  unfold ModelCache.get_model. simpl. rewrite Hy, Ht. simpl.
  split; [reflexivity|apply calls_filled].
Qed.

Lemma failed_move_leaves_unmoved_model_witness :
  fst (ModelCache.get_model first_move_fails ModelCache.empty)
  = inl (ModelCache.MoveError 0) /\
  fst (ModelCache.calls first_move_fails 2
         (snd (ModelCache.get_model first_move_fails ModelCache.empty)))
  = [inr {| ModelCache.built_by := 0; ModelCache.moved_to := None |};
     inr {| ModelCache.built_by := 0; ModelCache.moved_to := None |}].
Proof.
  destruct (failed_move_leaves_unmoved_model first_move_fails ModelCache.empty 2
              eq_refl eq_refl eq_refl) as [H1 H2].
  split; [exact H1|]. cbv zeta in H2. rewrite H2. reflexivity.
Defined.

(** X6.  When the construction of the model raises, the global stays
    empty, so the next call constructs again; and a model that a call on an
    empty cache returns was moved to CUDA when CUDA is available and to the
    CPU otherwise. *)
Theorem failed_construction_is_retried
    (m : ModelCache.machine) (c : ModelCache.cache) :
  ModelCache.model c = None ->
  let n := ModelCache.constructions c in
  let device := if ModelCache.cuda_is_available m
                then ModelCache.cuda else ModelCache.cpu in
  (ModelCache.YOLO_succeeds m n = false ->
   fst (ModelCache.get_model m c) = inl (ModelCache.ConstructorError n) /\
   ModelCache.model (snd (ModelCache.get_model m c)) = None /\
   (ModelCache.YOLO_succeeds m (S n) = true ->
    ModelCache.to_succeeds m (S n) = true ->
    fst (ModelCache.get_model m (snd (ModelCache.get_model m c)))
    = inr {| ModelCache.built_by := S n;
             ModelCache.moved_to := Some device |})) /\
  (forall y, fst (ModelCache.get_model m c) = inr y ->
             ModelCache.moved_to y = Some device).
Proof.
  destruct c as [y0 n]. simpl. intros ->. unfold ModelCache.get_model. simpl.
  split.
  - intros Hy. rewrite Hy. simpl. repeat split.
    intros Hy' Ht'. rewrite Hy', Ht'. reflexivity.
  - intros y. destruct (ModelCache.YOLO_succeeds m n); [|discriminate].
    destruct (ModelCache.to_succeeds m n); [|discriminate].
    simpl. intros H. injection H as <-. reflexivity.
Qed.

Lemma failed_construction_is_retried_witness :
  fst (ModelCache.get_model first_construction_fails
         (snd (ModelCache.get_model first_construction_fails ModelCache.empty)))
  = inr {| ModelCache.built_by := 1; ModelCache.moved_to := Some ModelCache.cpu |}.
Proof.
  destruct (failed_construction_is_retried first_construction_fails
              ModelCache.empty eq_refl) as [H _].
  destruct (H eq_refl) as (_ & _ & H3). exact (H3 eq_refl eq_refl).
Defined.

(** ** The endpoints (main.py) *)

Lemma no_dot_cons (c : ascii) (s : string) :
  no_dot (String c s) = negb (Ascii.eqb c ".") && no_dot s.
Proof. reflexivity. Qed.

(** What [split('.')] returns: one piece, the text itself, when the text has
    no dot; otherwise several, the last of which is what follows the last
    dot. *)
Lemma str_split_dot (s : string) :
  exists h t,
    str_split "." s = h :: t /\
    no_dot (List.last (h :: t) "") = true /\
    if no_dot s then t = [] /\ h = s
    else t <> [] /\ exists stem, s = stem ++ "." ++ List.last (h :: t) "".
Proof.
  induction s as [|c s (h & t & E & Hlast & IH)].
  - exists "", []. repeat split.
  - simpl str_split. rewrite E, no_dot_cons.
    destruct (Ascii.eqb c ".") eqn:Hc; simpl negb; simpl andb.
    + apply Ascii.eqb_eq in Hc. subst c.
      exists "", (h :: t). repeat split; [exact Hlast|discriminate|].
      change (List.last ("" :: h :: t) "") with (List.last (h :: t) "").
      destruct (no_dot s).
      * destruct IH as [-> ->]. exists "". reflexivity.
      * destruct IH as (_ & stem & Hs). exists (String "." stem).
        exact (f_equal (String ".") Hs).
    + exists (String c h), t. split; [reflexivity|].
      destruct (no_dot s).
      * destruct IH as [-> ->]. simpl in *. rewrite no_dot_cons, Hc, Hlast.
        repeat split.
      * destruct IH as (Ht & stem & Hs). destruct t as [|h' t]; [congruence|].
        change (List.last (String c h :: h' :: t) "")
          with (List.last (h :: h' :: t) "").
        repeat split; [exact Hlast|discriminate|].
        exists (String c stem). exact (f_equal (String c) Hs).
Qed.

(** X7.  The extension taken from an uploaded name (line 56) never holds
    a dot; it is the whole name when the name has no dot (there is no
    extension to take then), and otherwise the name is some stem, a dot, and
    the extension. *)
Theorem extension_is_text_after_last_dot (name : string) :
  no_dot (file_ext_of name) = true /\
  (no_dot name = true -> file_ext_of name = name) /\
  (no_dot name = false ->
   exists stem, name = stem ++ "." ++ file_ext_of name).
Proof.
  unfold file_ext_of.
  destruct (str_split_dot name) as (h & t & -> & Hlast & H).
  split; [exact Hlast|].
  destruct (no_dot name).
  - destruct H as [-> ->]. split; [reflexivity|discriminate].
  - destruct H as (_ & stem & Hs). split; [discriminate|].
    intros _. exists stem. exact Hs.
Qed.

Lemma extension_is_text_after_last_dot_witness :
  file_ext_of "video" = "video" /\
  exists stem, "my.holiday.MOV" = stem ++ "." ++ file_ext_of "my.holiday.MOV".
Proof.
  split.
  - apply (extension_is_text_after_last_dot "video"). reflexivity.
  - apply (extension_is_text_after_last_dot "my.holiday.MOV"). reflexivity.
Defined.

(** *** The sample listings (lines 90-106) *)

Lemma ascii_compare_eq (a b : ascii) : Ascii.compare a b = Eq -> a = b.
Proof. apply Ascii.compare_eq_iff. Qed.

Lemma ascii_compare_lt_trans (a b c : ascii) :
  Ascii.compare a b = Lt -> Ascii.compare b c = Lt -> Ascii.compare a c = Lt.
Proof.
  unfold Ascii.compare. rewrite !N.compare_lt_iff. apply N.lt_trans.
Qed.

Lemma string_compare_lt_trans (s1 s2 s3 : string) :
  String.compare s1 s2 = Lt -> String.compare s2 s3 = Lt ->
  String.compare s1 s3 = Lt.
Proof.
  revert s2 s3. induction s1 as [|c1 s1 IH]; intros [|c2 s2] [|c3 s3]; simpl;
    try congruence.
  destruct (Ascii.compare c1 c2) eqn:E12; try discriminate;
    destruct (Ascii.compare c2 c3) eqn:E23; try discriminate; intros H12 H23.
  - apply ascii_compare_eq in E12, E23. subst.
    replace (Ascii.compare c3 c3) with Eq
      by (symmetry; unfold Ascii.compare; apply N.compare_refl).
    eapply IH; eassumption.
  - apply ascii_compare_eq in E12. subst. rewrite E23. reflexivity.
  - apply ascii_compare_eq in E23. subst. rewrite E12. reflexivity.
  - rewrite (ascii_compare_lt_trans _ _ _ E12 E23). reflexivity.
Qed.

Lemma string_leb_trans (s1 s2 s3 : string) :
  String.leb s1 s2 = true -> String.leb s2 s3 = true -> String.leb s1 s3 = true.
Proof.
  unfold String.leb.
  destruct (String.compare s1 s2) eqn:E12; try discriminate;
    destruct (String.compare s2 s3) eqn:E23; try discriminate; intros _ _.
  - apply String.compare_eq_iff in E12, E23. subst.
    change (String.leb s3 s3 = true). destruct (String.leb_total s3 s3); assumption.
  - apply String.compare_eq_iff in E12. subst. rewrite E23. reflexivity.
  - apply String.compare_eq_iff in E23. subst. rewrite E12. reflexivity.
  - rewrite (string_compare_lt_trans _ _ _ E12 E23). reflexivity.
Qed.

Lemma sorted_StronglySorted (l : list string) :
  StronglySorted (fun a b => String.leb a b = true) (sorted l).
Proof.
  apply Sorted_StronglySorted.
  - intros a b c. apply string_leb_trans.
  - exact (StringSort.Sorted_sort l).
Qed.

Lemma filter_Permutation {A} (f : A -> bool) (l l' : list A) :
  Permutation l l' -> Permutation (List.filter f l) (List.filter f l').
Proof.
  induction 1 as [|x l l' _ IH|x y l|l l' l'' _ IH1 _ IH2]; simpl.
  - constructor.
  - destruct (f x); [constructor|]; exact IH.
  - destruct (f x), (f y); try reflexivity. constructor.
  - etransitivity; eassumption.
Qed.

(** Two ascending lists with the same elements are the same list. *)
Lemma ascending_unique (l1 l2 : list string) :
  StronglySorted (fun a b => String.leb a b = true) l1 ->
  StronglySorted (fun a b => String.leb a b = true) l2 ->
  Permutation l1 l2 -> l1 = l2.
Proof.
  intros S1. revert l2.
  induction S1 as [|a l1 S1 IH Ha]; intros l2 S2 P.
  - symmetry. exact (Permutation_nil P).
  - destruct S2 as [|b l2 S2 Hb].
    + symmetry in P. apply Permutation_nil in P. discriminate.
    + assert (a = b) as <-.
      { assert (Ia : In a (b :: l2))
          by (eapply Permutation_in; [exact P|left; reflexivity]).
        assert (Ib : In b (a :: l1))
          by (eapply Permutation_in; [symmetry; exact P|left; reflexivity]).
        destruct Ia as [->|Ia]; [reflexivity|].
        destruct Ib as [->|Ib]; [reflexivity|].
        rewrite List.Forall_forall in Ha, Hb.
        apply String.leb_antisym; [apply Ha; exact Ib|apply Hb; exact Ia]. }
      f_equal. apply IH; [exact S2|]. exact (Permutation_cons_inv P).
Qed.

(** X8.  A sample listing is empty when the directory is missing;
    otherwise it holds exactly the listed names that are accepted, each as
    often as it is listed, in ascending order; and it does not depend on the
    order in which the directory is listed. *)
Theorem listing_is_filtered_and_sorted (exts : list string) :
  list_samples exts None = [] /\
  (forall names,
      Permutation (List.filter (accepted exts) names)
                  (list_samples exts (Some names)) /\
      StronglySorted (fun a b => String.leb a b = true)
                     (list_samples exts (Some names)) /\
      (forall f, In f (list_samples exts (Some names))
                 <-> In f names /\ accepted exts f = true)) /\
  (forall names names',
      Permutation names names' ->
      list_samples exts (Some names) = list_samples exts (Some names')).
Proof.
  split; [reflexivity|]. split.
  - intros names. unfold list_samples.
    assert (P := StringSort.Permuted_sort (List.filter (accepted exts) names)).
    fold (sorted (List.filter (accepted exts) names)) in P.
    split; [exact P|]. split; [apply sorted_StronglySorted|].
    intros f. rewrite <- filter_In. split.
    + apply Permutation_in. symmetry. exact P.
    + apply Permutation_in. exact P.
  - intros names names' P. unfold list_samples.
    apply ascending_unique; try apply sorted_StronglySorted.
    unfold sorted.
    rewrite <- (StringSort.Permuted_sort (List.filter (accepted exts) names)).
    rewrite <- (StringSort.Permuted_sort (List.filter (accepted exts) names')).
    apply filter_Permutation, P.
Qed.

Lemma listing_is_filtered_and_sorted_witness :
  list_sample_videos (Some ["walk.mp4"; "notes.txt"; "dance.avi"])
  = list_sample_videos (Some ["dance.avi"; "walk.mp4"; "notes.txt"]).
Proof.
  apply (listing_is_filtered_and_sorted [".mp4"; ".avi"; ".mov"]).
  symmetry.
  exact (Permutation_cons_append ["walk.mp4"; "notes.txt"] "dance.avi").
Defined.

(** What the video listing accepts follows the lower-case form of the name,
    so upper-case extensions are listed as well. *)
Example list_sample_videos_typical :
  list_sample_videos (Some ["walk.mp4"; "notes.txt"; "RUN.MP4"; "dance.avi"])
  = ["RUN.MP4"; "dance.avi"; "walk.mp4"].
Proof. reflexivity. Qed.

Example list_sample_images_typical :
  list_sample_images (Some ["b.png"; "a.JPG"; "c.gif"; "a.jpeg.bak"])
  = ["a.JPG"; "b.png"].
Proof. reflexivity. Qed.

(** *** The names of an upload (lines 56-65) *)

Lemma string_app_assoc (a b c : string) :
  ((a ++ b) ++ c = a ++ (b ++ c))%string.
Proof.
  induction a as [|x a IH]; [reflexivity|exact (f_equal (String x) IH)].
Qed.

Lemma string_app_nil_r (a : string) : (a ++ "" = a)%string.
Proof.
  induction a as [|x a IH]; [reflexivity|exact (f_equal (String x) IH)].
Qed.

Lemma all_chars_app (p : ascii -> bool) (a b : string) :
  all_chars p (a ++ b) = all_chars p a && all_chars p b.
Proof.
  induction a as [|x a IH]; simpl; [reflexivity|].
  rewrite IH. apply andb_assoc.
Qed.

Lemma startswith_all_chars (q : ascii -> bool) (p s : string) :
  PyStr.startswith p s = true -> all_chars q s = true -> all_chars q p = true.
Proof.
  intros H Hs. apply startswith_split in H as [b ->].
  rewrite all_chars_app in Hs. now apply andb_prop in Hs as [Hs _].
Qed.

(** A text that occurs in [s] is made of characters of [s]. *)
Lemma contains_all_chars (q : ascii -> bool) (p s : string) :
  PyStr.contains p s = true -> all_chars q s = true -> all_chars q p = true.
Proof.
  induction s as [|c s IH]; simpl; intros H Hs.
  - rewrite orb_false_r in H. destruct p; [reflexivity|discriminate H].
  - apply andb_prop in Hs as [Hc Hs].
    apply orb_prop in H as [H|H]; [|now apply IH].
    apply (startswith_all_chars q) in H; [exact H|].
    simpl. now rewrite Hc, Hs.
Qed.

Lemma uuid_char_no_dot (c : ascii) :
  uuid_char c = true -> negb (Ascii.eqb c ".") = true.
Proof.
  destruct (Ascii.eqb c ".") eqn:E; [|reflexivity].
  apply Ascii.eqb_eq in E. subst c. discriminate.
Qed.

Lemma uuid_text_no_dot (s : string) : uuid_text s = true -> no_dot s = true.
Proof.
  unfold uuid_text, no_dot. induction s as [|c s IH]; simpl; [reflexivity|].
  intros H. apply andb_prop in H as [Hc Hs].
  now rewrite (uuid_char_no_dot c Hc), IH.
Qed.

Lemma no_dot_no_mp4 (s : string) :
  no_dot s = true -> PyStr.contains ".mp4" s = false.
Proof.
  intros H. destruct (PyStr.contains ".mp4" s) eqn:E; [|reflexivity].
  apply (contains_all_chars (fun c => negb (Ascii.eqb c "."))) in E;
    [discriminate E|exact H].
Qed.

Lemma string_case (s : string) : s = "" \/ exists x s', s = String x s'.
Proof. destruct s; eauto. Qed.

Section BeforeDot.

Variables ext new : string.
Hypothesis ext_no_dot : no_dot ext = true.

(** A match of a dot-free text cannot reach over a dot. *)
Lemma startswith_before_dot (p a b : string) :
  no_dot p = true ->
  PyStr.startswith p (a ++ "." ++ b) = PyStr.startswith p a.
Proof.
  revert a. induction p as [|x p IH]; intros a Hp; [reflexivity|].
  rewrite no_dot_cons in Hp. apply andb_prop in Hp as [Hx Hp].
  destruct a as [|y a]; simpl.
  - destruct (Ascii.eqb x ".") eqn:E; [discriminate Hx|reflexivity].
  - destruct (Ascii.eqb x y); [now apply IH|reflexivity].
Qed.

Lemma startswith_length (p s : string) :
  PyStr.startswith p s = true -> String.length p <= String.length s.
Proof.
  intros H. apply startswith_split in H as [b ->].
  rewrite string_length_app. lia.
Qed.

Lemma startswith_refl (p b : string) : PyStr.startswith p (p ++ b) = true.
Proof.
  induction p as [|x p IH]; simpl; [reflexivity|].
  now rewrite Ascii.eqb_refl.
Qed.

Lemma replace_from_skip_all (old : string) (k : nat) (s : string) :
  String.length s <= k -> PyStr.replace_from old new k s = "".
Proof.
  revert k. induction s as [|c s IH]; intros k Hk; [reflexivity|].
  simpl in Hk. destruct k as [|k]; [lia|]. simpl. apply IH. lia.
Qed.

Lemma replace_from_unfold (old : string) (c : ascii) (s : string) :
  PyStr.replace_from old new 0 (String c s)
  = if PyStr.startswith old (String c s)
    then (new ++ PyStr.replace_from old new (String.length old - 1) s)%string
    else String c (PyStr.replace_from old new 0 s).
Proof. reflexivity. Qed.

Lemma replace_from_before_dot (x : ascii) (ext' : string) (u : string) (k : nat) :
  ext = String x ext' ->
  k <= String.length u ->
  PyStr.replace_from ext new k (u ++ "." ++ ext)
  = (PyStr.replace_from ext new k u ++ "." ++ new)%string.
Proof.
  intros Hext. revert k. induction u as [|c u IH]; intros k Hk.
  - assert (k = 0) as -> by (simpl in Hk; lia).
    change ("" ++ "." ++ ext)%string with (String "." ext).
    rewrite replace_from_unfold.
    replace (PyStr.startswith ext (String "." ext)) with false.
    2:{ symmetry. pose proof ext_no_dot as Hx.
        rewrite Hext, no_dot_cons in Hx. rewrite Hext. simpl.
        destruct (Ascii.eqb x "."); [discriminate Hx|reflexivity]. }
    change (PyStr.replace_from ext new 0 "" ++ "." ++ new)%string
      with (String "." new).
    f_equal.
    transitivity (PyStr.replace_from ext new 0 (String x ext'));
      [now rewrite <- Hext|].
    rewrite replace_from_unfold, <- Hext.
    replace (PyStr.startswith ext ext) with true
      by (symmetry; rewrite <- (string_app_nil_r ext) at 2;
          apply startswith_refl).
    rewrite replace_from_skip_all; [apply string_app_nil_r|].
    rewrite Hext. simpl. lia.
  - destruct k as [|k].
    + change (String c u ++ "." ++ ext)%string
        with (String c (u ++ "." ++ ext)%string).
      rewrite !replace_from_unfold.
      change (String c (u ++ "." ++ ext)%string)
        with (String c u ++ "." ++ ext)%string.
      rewrite (startswith_before_dot ext (String c u) ext ext_no_dot).
      destruct (PyStr.startswith ext (String c u)) eqn:E.
      * apply startswith_length in E. simpl in E.
        rewrite IH by lia. now rewrite string_app_assoc.
      * rewrite IH by lia. reflexivity.
    + simpl in Hk. simpl. apply IH. lia.
Qed.

Lemma intersperse_before_dot (u : string) :
  PyStr.intersperse new (u ++ ".")
  = (PyStr.intersperse new u ++ "." ++ new)%string.
Proof.
  induction u as [|c u IH]; simpl; [reflexivity|].
  rewrite IH, string_app_assoc. reflexivity.
Qed.

(** Replacing a dot-free extension in [u.ext]: what stands before the dot
    is rewritten on its own, and the extension behind it is replaced. *)
Lemma replace_before_dot (u : string) :
  PyStr.replace ext new (u ++ "." ++ ext)
  = (PyStr.replace ext new u ++ "." ++ new)%string.
Proof.
  destruct (string_case ext) as [E|(x & ext' & E)].
  - unfold PyStr.replace. rewrite E. apply intersperse_before_dot.
  - transitivity (PyStr.replace_from ext new 0 (u ++ "." ++ ext)).
    { unfold PyStr.replace. rewrite E. reflexivity. }
    rewrite (replace_from_before_dot x ext' u 0 E) by lia.
    unfold PyStr.replace. rewrite E. reflexivity.
Qed.

Lemma replace_from_all_chars (q : ascii -> bool) (old : string) (k : nat)
    (s : string) :
  all_chars q new = true -> all_chars q s = true ->
  all_chars q (PyStr.replace_from old new k s) = true.
Proof.
  intros Hn. revert k. induction s as [|c s IH]; intros k Hs; [reflexivity|].
  simpl in Hs. apply andb_prop in Hs as [Hc Hs].
  destruct k as [|k]; [|simpl; now apply IH].
  rewrite replace_from_unfold. destruct (PyStr.startswith old (String c s)).
  - rewrite all_chars_app, Hn. now apply IH.
  - simpl. rewrite Hc. now apply IH.
Qed.

Lemma intersperse_all_chars (q : ascii -> bool) (s : string) :
  all_chars q new = true -> all_chars q s = true ->
  all_chars q (PyStr.intersperse new s) = true.
Proof.
  intros Hn. induction s as [|c s IH]; intros Hs; [exact Hn|].
  simpl in Hs. apply andb_prop in Hs as [Hc Hs].
  simpl. rewrite all_chars_app, Hn. simpl. rewrite Hc. now apply IH.
Qed.

Lemma replace_all_chars (q : ascii -> bool) (old s : string) :
  all_chars q new = true -> all_chars q s = true ->
  all_chars q (PyStr.replace old new s) = true.
Proof.
  unfold PyStr.replace. destruct old.
  - apply intersperse_all_chars.
  - apply replace_from_all_chars.
Qed.

End BeforeDot.

Lemma uuid_text_not_absolute (u x : string) :
  uuid_text u = true -> PyStr.startswith "/" x = false ->
  PyStr.startswith "/" (u ++ x) = false.
Proof.
  intros Hu Hx. destruct u as [|c u]; [exact Hx|].
  unfold uuid_text in Hu. simpl in Hu. apply andb_prop in Hu as [Hc _].
  change (PyStr.startswith "/" (String c u ++ x))
    with (if Ascii.eqb "/" c then true else false).
  destruct (Ascii.eqb "/" c) eqn:E; [|reflexivity].
  apply Ascii.eqb_eq in E. subst c. discriminate Hc.
Qed.

(** The path an upload is saved at (line 58). *)
Lemma upload_file_path (uuid4 ext : string) :
  uuid_text uuid4 = true ->
  os_path_join UPLOAD_DIR (uuid4 ++ "." ++ ext)
  = ("uploads/" ++ uuid4 ++ "." ++ ext)%string.
Proof.
  intros Hu. unfold os_path_join.
  rewrite (uuid_text_not_absolute uuid4 ("." ++ ext) Hu eq_refl). reflexivity.
Qed.

(** The names line 64 and 65 build from a dot-free identifier. *)
Lemma upload_output_names (uuid4 ext : string) :
  no_dot uuid4 = true -> no_dot ext = true ->
  let r := PyStr.replace ext "mp4" uuid4 in
  no_dot r = true /\
  PyStr.replace ext "mp4" (uuid4 ++ "." ++ ext) = (r ++ ".mp4")%string /\
  os_path_join RESULTS_DIR
    ("processed_" ++ PyStr.replace ext "mp4" (uuid4 ++ "." ++ ext))
  = ("results/processed_" ++ r ++ ".mp4")%string /\
  temp_path_of ("results/processed_" ++ r ++ ".mp4")
  = ("results/processed_" ++ r ++ "_temp.mp4")%string.
Proof.
  intros Hu He r.
  assert (Hr : no_dot r = true) by (apply replace_all_chars; [reflexivity|exact Hu]).
  split; [exact Hr|].
  split; [exact (replace_before_dot ext "mp4" He uuid4)|].
  split.
  - rewrite (replace_before_dot ext "mp4" He uuid4). reflexivity.
  - rewrite <- !string_app_assoc. apply temp_path_of_suffix.
    apply no_dot_no_mp4. unfold no_dot. rewrite all_chars_app.
    exact Hr.
Qed.

(** X9.  The response to an upload names an mp4 file: whatever the
    uploaded name is, the response's file name is "processed_", a dot-free
    text and ".mp4", its path is that name under "results/", and the
    temporary path of the run differs from it.  The dot-free text is the
    identifier drawn for the upload whenever the extension holds a character
    that no identifier holds (as "mp4", "avi" and "mov" do). *)
Theorem upload_response_names_an_mp4_file
    (w : world) (name : string) (upload : file) (uuid4 : string)
    (save : save_outcome) (request : request) (st : state)
    (path fn : string) :
  uuid_text uuid4 = true ->
  fst (predict_video_endpoint w (Some name) upload uuid4 save request st)
  = Returns (FileResponse path fn) ->
  exists r,
    no_dot r = true /\
    fn = ("processed_" ++ r ++ ".mp4")%string /\
    path = ("results/" ++ fn)%string /\
    temp_path_of path = ("results/processed_" ++ r ++ "_temp.mp4")%string /\
    temp_path_of path <> path /\
    (all_chars uuid_char (file_ext_of name) = false -> r = uuid4).
Proof.
  intros Hu. unfold predict_video_endpoint. cbv zeta.
  destruct (str_split_dot name) as (h & t & Esplit & He & _).
  fold (file_ext_of name) in He. rewrite <- Esplit in He.
  fold (file_ext_of name) in He.
  destruct (upload_output_names uuid4 (file_ext_of name)
              (uuid_text_no_dot _ Hu) He) as (Hr & Hfn & Hpath & Htemp).
  destruct save as [|e0 created]; [|discriminate].
  destruct (process_video _ _ _ _ _) as [[v|e] st2]; cbn [fst];
    [|discriminate].
  intros H. injection H as <- <-.
  exists (PyStr.replace (file_ext_of name) "mp4" uuid4).
  rewrite Hpath, Hfn, Htemp.
  split; [exact Hr|]. split; [reflexivity|]. split; [reflexivity|].
  split; [reflexivity|]. split.
  - rewrite <- !string_app_assoc. intros E. apply append_inj_l in E.
    discriminate E.
  - intros Hext. apply replace_absent_id.
    destruct (PyStr.contains (file_ext_of name) uuid4) eqn:Hc; [|reflexivity].
    apply (contains_all_chars uuid_char) in Hc; [congruence|exact Hu].
Qed.

Lemma upload_response_names_an_mp4_file_witness :
  exists r,
    no_dot r = true /\
    "processed_3f2a-77.mp4" = ("processed_" ++ r ++ ".mp4")%string /\
    "results/processed_3f2a-77.mp4" = ("results/" ++ "processed_3f2a-77.mp4")%string /\
    temp_path_of "results/processed_3f2a-77.mp4"
    = ("results/processed_" ++ r ++ "_temp.mp4")%string /\
    temp_path_of "results/processed_3f2a-77.mp4" <> "results/processed_3f2a-77.mp4" /\
    (all_chars uuid_char (file_ext_of "Holiday.MOV") = false -> r = "3f2a-77").
Proof.
  apply (upload_response_names_an_mp4_file xvid_world "Holiday.MOV" (Blob 7)
           "3f2a-77" Saved gone_request (init_state ∅)).
  - reflexivity.
  - vm_compute. reflexivity.
Defined.

(** An extension made of hexadecimal digits is replaced inside the
    identifier as well. *)
Example upload_name_with_hex_extension :
  PyStr.replace (file_ext_of "take.a") "mp4" ("ab12" ++ "." ++ file_ext_of "take.a")
  = "mp4b12.mp4".
Proof. reflexivity. Qed.

(** *** The video endpoints (lines 51-88 and 126-143) *)

Lemma remove_if_exists_fs (p : string) (st : state) :
  fs (snd (remove_if_exists p st)) !! p = None /\
  (forall q, q <> p -> fs (snd (remove_if_exists p st)) !! q = fs st !! q) /\
  frame_count (snd (remove_if_exists p st)) = frame_count st.
Proof.
  unfold remove_if_exists, bind, os_path_exists, os_remove, ret.
  destruct (fs st !! p) eqn:E; cbn [fst snd]; rewrite ?E; cbn [fst snd fs set_fs frame_count].
  - split; [apply lookup_delete_eq|]. split; [|reflexivity].
    intros q Hq. now apply lookup_delete_ne.
  - split; [first [exact E|reflexivity]|]. split; reflexivity.
Qed.


(** What a run that opened its writer leaves behind. *)
Lemma final_state_files w video_path output_path fs0 c :
  run_codec w video_path = Some c ->
  let s := final_state w video_path output_path (init_state fs0) in
  let written :=
    map written_image
      (firstn (frame_count s) (cap_frames (VideoCapture w video_path))) in
  (which_ffmpeg w = false \/ temp_path_of output_path <> output_path ->
   exists f, fs s !! output_path = Some f /\ frames_of f = written) /\
  (which_ffmpeg w = true -> temp_path_of output_path = output_path ->
   ffmpeg w = ToolOk -> fs s !! output_path = None) /\
  (forall p, p <> output_path -> p <> temp_path_of output_path ->
             fs s !! p = fs0 !! p).
Proof.
  intros Hc. cbv zeta.
  destruct (looped_state_invariant w video_path output_path fs0 c Hc)
    as (_ & _ & Hfile & Hother).
  destruct (final_state_counters w video_path output_path (init_state fs0))
    as [_ Hn].
  rewrite Hn. split; [|split].
  - intros Hne.
    destruct (final_state_output w video_path output_path (init_state fs0) _
                Hne Hfile) as (f & Hf & Hfr).
    exists f. split; [exact Hf|exact Hfr].
  - intros Hw Hsame Hok. unfold final_state.
    eapply transcode_same_path_removes_output; try eassumption.
  - intros p Hp Ht. unfold final_state.
    rewrite transcode_other_paths by assumption.
    unfold finished_state. cbn [fs push]. now apply Hother.
Qed.

Lemma app_first_char (c : ascii) (a b : string) (d : ascii) (x y : string) :
  (String c a ++ x = String d b ++ y)%string -> c = d.
Proof. intros E. injection E as E _. exact E. Qed.

(** X10.  The upload endpoint cleans up after itself: whatever becomes
    of saving the upload and of the run, no file is left at the upload path.
    It answers with the file response exactly when the upload was saved, the
    model loads and a codec opens; the file it names then exists and carries
    the frames the run counted, in order.  Otherwise it raises status 500,
    and no file is left behind at all.  Apart from the upload path, the
    output path and its temporary path, the files are as they were. *)
Theorem upload_endpoint_cleans_up
    (w : world) (name : string) (upload : file) (uuid4 : string)
    (save : save_outcome) (request : request) (fs0 : gmap string file) :
  uuid_text uuid4 = true ->
  let file_path := ("uploads/" ++ uuid4 ++ "." ++ file_ext_of name)%string in
  let r := predict_video_endpoint w (Some name) upload uuid4 save request
             (init_state fs0) in
  fs (snd r) !! file_path = None /\
  (forall path fn,
      fst r = Returns (FileResponse path fn) ->
      save = Saved /\ model_loads w = true /\ run_codec w file_path <> None /\
      (exists f,
          fs (snd r) !! path = Some f /\
          frames_of f
          = map written_image
              (firstn (frame_count (snd r))
                      (cap_frames (VideoCapture w file_path)))) /\
      (forall p, p <> file_path -> p <> path -> p <> temp_path_of path ->
                 fs (snd r) !! p = fs0 !! p)) /\
  (forall e,
      fst r = Raises e ->
      (save <> Saved \/ model_loads w = false \/ run_codec w file_path = None) /\
      (exists e', e = HTTPException 500 (StrOf (LibraryError e'))) /\
      (forall p, p <> file_path -> fs (snd r) !! p = fs0 !! p)).
Proof.
  intros Hu. cbv zeta. unfold predict_video_endpoint. cbv zeta.
  destruct (str_split_dot name) as (h & t & Esplit & He & _).
  rewrite <- Esplit in He. fold (file_ext_of name) in He.
  destruct (upload_output_names uuid4 (file_ext_of name)
              (uuid_text_no_dot _ Hu) He) as (Hr & _ & Hpath & Htemp).
  rewrite Hpath, (upload_file_path uuid4 (file_ext_of name) Hu).
  set (file_path := ("uploads/" ++ uuid4 ++ "." ++ file_ext_of name)%string).
  set (r := PyStr.replace (file_ext_of name) "mp4" uuid4) in *.
  set (output_path := ("results/processed_" ++ r ++ ".mp4")%string) in *.
  assert (Hfresh : temp_path_of output_path <> output_path).
  { rewrite Htemp. unfold output_path. rewrite <- !string_app_assoc.
    intros E. apply append_inj_l in E. discriminate E. }
  assert (Hfo : file_path <> output_path).
  { intros E. apply app_first_char in E. discriminate E. }
  assert (Hft : file_path <> temp_path_of output_path).
  { rewrite Htemp. intros E. apply app_first_char in E. discriminate E. }
  destruct save as [|e0 created].
  2:{ cbn [fst snd].
      match goal with |- context [remove_if_exists file_path ?s] =>
        destruct (remove_if_exists_fs file_path s) as (Hgone & Hkept & _) end.
      split; [exact Hgone|]. split; [discriminate|].
      intros e H. injection H as <-.
      split; [left; discriminate|]. split; [eauto|].
      intros p Hp. rewrite Hkept by exact Hp.
      destruct created; cbn [fs set_fs init_state]; [|reflexivity].
      now apply lookup_insert_ne. }
  change (set_fs (<[file_path:=upload]> (fs (init_state fs0))) (init_state fs0))
    with (init_state (<[file_path:=upload]> fs0)).
  rewrite process_video_eq.
  destruct (model_loads w).
  - destruct (run_codec w file_path) as [c|] eqn:Hc; cbn [fst snd].
    + destruct (remove_if_exists_fs file_path
                  (final_state w file_path output_path
                     (init_state (<[file_path:=upload]> fs0))))
        as (Hgone & Hkept & Hcount).
      destruct (final_state_files w file_path output_path
                  (<[file_path:=upload]> fs0) c Hc) as (Hout & _ & Hother).
      cbv zeta in Hout, Hother.
      split; [exact Hgone|]. split; [|discriminate].
      intros path fn H. injection H as <- <-.
      split; [reflexivity|]. split; [reflexivity|]. split; [discriminate|].
      split.
      * destruct (Hout (or_intror Hfresh)) as (f & Hf & Hfr).
        exists f. rewrite Hkept by (intros E; apply Hfo; now rewrite E).
        rewrite Hcount. split; [exact Hf|exact Hfr].
      * intros p Hp Ho Ht. rewrite Hkept by exact Hp.
        rewrite Hother by assumption. now apply lookup_insert_ne.
    + destruct (remove_if_exists_fs file_path
                  (push EvCapRelease
                     (set_source Released
                        (opened_state w file_path output_path
                           (init_state (<[file_path:=upload]> fs0))))))
        as (Hgone & Hkept & _).
      split; [exact Hgone|]. split; [discriminate|].
      intros e H. injection H as <-.
      split; [right; right; reflexivity|]. split; [eauto|].
      intros p Hp. rewrite Hkept by exact Hp.
      rewrite opened_state_eq, Hc. cbn [fs push set_source init_state].
      now apply lookup_insert_ne.
  - cbn [fst snd].
    destruct (remove_if_exists_fs file_path
                (init_state (<[file_path:=upload]> fs0)))
      as (Hgone & Hkept & _).
    split; [exact Hgone|]. split; [discriminate|].
    intros e H. injection H as <-.
    split; [right; left; reflexivity|]. split; [eauto|].
    intros p Hp. rewrite Hkept by exact Hp. cbn [fs init_state].
    now apply lookup_insert_ne.
Qed.

Lemma upload_endpoint_cleans_up_witness :
  fs (snd (predict_video_endpoint xvid_world (Some "Holiday.MOV") (Blob 7)
             "3f2a-77" Saved gone_request (init_state ∅)))
    !! "uploads/3f2a-77.MOV"
  = None.
Proof.
  exact (proj1 (upload_endpoint_cleans_up xvid_world "Holiday.MOV" (Blob 7)
                  "3f2a-77" Saved gone_request ∅ eq_refl)).
Defined.

Lemma startswith_mp4_no_dot (c : ascii) (s : string) :
  negb (Ascii.eqb c ".") = true -> PyStr.startswith ".mp4" (String c s) = false.
Proof.
  intros Hc.
  change (PyStr.startswith ".mp4" (String c s))
    with (if Ascii.eqb "." c then PyStr.startswith "mp4" s else false).
  rewrite Ascii.eqb_sym. destruct (Ascii.eqb c "."); [discriminate Hc|reflexivity].
Qed.

(** A dot-free prefix is copied, and the scan goes on behind it. *)
Lemma temp_path_of_prefix (p s : string) :
  no_dot p = true ->
  temp_path_of (p ++ s) = (p ++ temp_path_of s)%string /\
  PyStr.contains ".mp4" (p ++ s) = PyStr.contains ".mp4" s.
Proof.
  unfold temp_path_of, PyStr.replace.
  induction p as [|c p IH]; intros Hp; [split; reflexivity|].
  rewrite no_dot_cons in Hp. apply andb_prop in Hp as [Hc Hp].
  destruct (IH Hp) as [IH1 IH2].
  change (String c p ++ s)%string with (String c (p ++ s)%string).
  split.
  - rewrite replace_from_unfold, (startswith_mp4_no_dot c _ Hc), IH1.
    reflexivity.
  - change (PyStr.contains ".mp4" (String c (p ++ s)))
      with (PyStr.startswith ".mp4" (String c (p ++ s))
            || PyStr.contains ".mp4" (p ++ s)).
    rewrite (startswith_mp4_no_dot c _ Hc), IH2. reflexivity.
Qed.

Lemma first_char (c : ascii) (a : string) (d : ascii) (b : string) :
  String c a = String d b -> c = d.
Proof. intros E. injection E as E _. exact E. Qed.

(** The path of a sample (line 129) does not start like a result path. *)
Lemma sample_file_path (filename : string) :
  exists c rest,
    os_path_join "videos" filename = String c rest /\ c <> "r"%char.
Proof.
  unfold os_path_join.
  destruct (PyStr.startswith "/" filename) eqn:E.
  - apply startswith_split in E as [b ->]. exists "/"%char, b.
    split; [reflexivity|discriminate].
  - exists "v"%char, ("ideos/" ++ filename)%string.
    split; [reflexivity|discriminate].
Qed.

(** X11.  The sample-video endpoint never answers 404: the exception it
    raises for a missing sample is caught by its own handler and raised
    again with status 500, the 404 being its detail, and nothing has happened
    by then; every exception it raises has status 500.  Whatever the run
    does, the sample file itself is left as it was. *)
Theorem missing_sample_is_reported_as_500
    (w : world) (filename : string) (request : request)
    (fs0 : gmap string file) :
  let file_path := os_path_join "videos" filename in
  let r := predict_sample_video w filename request (init_state fs0) in
  (fs0 !! file_path = None ->
   r = (Raises (HTTPException 500
                  (StrOf (HTTPException 404 (Text "File not found")))),
        init_state fs0)) /\
  (forall e, fst r = Raises e -> exists d, e = HTTPException 500 d) /\
  fs (snd r) !! file_path = fs0 !! file_path.
Proof.
  cbv zeta. unfold predict_sample_video. cbv zeta.
  change (os_path_join RESULTS_DIR ("processed_" ++ filename))
    with ("results/processed_" ++ filename)%string.
  destruct (sample_file_path filename) as (c & rest & Epath & Hc).
  set (file_path := os_path_join "videos" filename) in *.
  set (output_path := ("results/processed_" ++ filename)%string).
  assert (Hfo : file_path <> output_path).
  { rewrite Epath. intros E.
    exact (Hc (first_char c rest "r" ("esults/processed_" ++ filename) E)). }
  assert (Hft : file_path <> temp_path_of output_path).
  { unfold output_path.
    rewrite (proj1 (temp_path_of_prefix "results/processed_" filename eq_refl)).
    rewrite Epath. intros E.
    exact (Hc (first_char c rest "r"
                 ("esults/processed_" ++ temp_path_of filename) E)). }
  cbn [fs init_state].
  destruct (fs0 !! file_path) as [sample|] eqn:Hfile.
  - rewrite process_video_eq.
    split; [discriminate|].
    destruct (model_loads w); [|split; [intros e H; injection H as <-; eauto|exact Hfile]].
    destruct (run_codec w file_path) as [cd|] eqn:Hcd; cbn [fst snd].
    + split; [discriminate|].
      destruct (final_state_files w file_path output_path fs0 cd Hcd)
        as (_ & _ & Hother).
      rewrite Hother by assumption. exact Hfile.
    + split; [intros e H; injection H as <-; eauto|].
      rewrite opened_state_eq, Hcd. exact Hfile.
  - split; [reflexivity|]. split; [|exact Hfile].
    intros e H. injection H as <-. eauto.
Qed.

Lemma missing_sample_is_reported_as_500_witness :
  fst (predict_sample_video xvid_world "walk.mp4" gone_request (init_state ∅))
  = Raises (HTTPException 500
              (StrOf (HTTPException 404 (Text "File not found")))).
Proof.
  rewrite (proj1 (missing_sample_is_reported_as_500 xvid_world "walk.mp4"
                    gone_request ∅) (lookup_empty _)).
  reflexivity.
Defined.


